(** * simple_consumer: the event-envelope consumer of channels-simple-consumer

    A shallow embedding of [src/simple_consumer/consumer.py]
    ([SimpleEvent] and [SimpleConsumer]) together with the parts of the
    sibling modules [signatures] and [utils] it calls, followed by the
    properties of the routing engine, the signature validator and the
    connection coordinator.

    Python objects are embedded as records, dictionaries as [gmap string _],
    exceptions as an error result, and everything the consumer does to the
    outside (frames handed to the transport, group publishes, printed lines,
    hook invocations) as a chronological trace kept in the state that is
    threaded through every method.

    The decorators [auth], [safe] and [database_sync_to_async] wrap some of
    the methods from outside; what is embedded is the body of each method,
    and an exception a body lets through is the method's result here. *)

From Stdlib Require Import String Ascii ZArith List Bool Lia.
From stdpp Require Import gmap strings list fin_maps pretty sorting.

Local Open Scope string_scope.

(** ** Python string operations used by the consumer *)

Module PyStr.

(** [s.startswith(p)] *)
Fixpoint startswith (p s : string) : bool :=
  match p, s with
  | EmptyString, _ => true
  | String a p', String b s' => if Ascii.eqb a b then startswith p' s' else false
  | String _ _, EmptyString => false
  end.

(** [sub in s] *)
Fixpoint contains (sub s : string) : bool :=
  startswith sub s ||
  match s with
  | EmptyString => false
  | String _ s' => contains sub s'
  end.

Fixpoint rev_onto (s acc : string) : string :=
  match s with
  | EmptyString => acc
  | String c s' => rev_onto s' (String c acc)
  end.

Definition rev (s : string) : string := rev_onto s EmptyString.

(** [s.split(sep)] for a non-empty separator: [skip] counts the characters
    of a separator that has just been recognised and is being stepped
    over, [cur] is the current piece, reversed. *)
Fixpoint split_go (sep : string) (skip : nat) (cur s : string) : list string :=
  match s with
  | EmptyString => [rev cur]
  | String c s' =>
      match skip with
      | S k => split_go sep k cur s'
      | O =>
          if startswith sep s
          then rev cur :: split_go sep (String.length sep - 1) EmptyString s'
          else split_go sep 0 (String c cur) s'
      end
  end.

Definition split (sep s : string) : list string := split_go sep 0 EmptyString s.

Definition is_space (c : ascii) : bool :=
  let n := nat_of_ascii c in
  (n =? 32)%nat || ((9 <=? n)%nat && (n <=? 13)%nat) || ((28 <=? n)%nat && (n <=? 31)%nat).

Fixpoint lstrip (s : string) : string :=
  match s with
  | String c s' => if is_space c then lstrip s' else s
  | EmptyString => EmptyString
  end.

(** [s.strip()] *)
Definition strip (s : string) : string := rev (lstrip (rev (lstrip s))).

(** [s.replace(old, new)] for a one-character [old], the only form the
    consumer and [get_handler_name] use. *)
Fixpoint replace (old : ascii) (new s : string) : string :=
  match s with
  | EmptyString => EmptyString
  | String c s' =>
      if Ascii.eqb c old then new ++ replace old new s' else String c (replace old new s')
  end.

Definition is_upper (c : ascii) : bool :=
  let n := nat_of_ascii c in (65 <=? n)%nat && (n <=? 90)%nat.

Definition lower (c : ascii) : ascii :=
  if is_upper c then ascii_of_nat (nat_of_ascii c + 32) else c.

Fixpoint camel_go (sep : string) (first : bool) (s : string) : string :=
  match s with
  | EmptyString => EmptyString
  | String c s' =>
      (if is_upper c && negb first then sep else EmptyString)
        ++ String (lower c) (camel_go sep false s')
  end.

(** The characters of identifiers and dotted names. *)
Definition word_char (c : ascii) : bool :=
  let n := nat_of_ascii c in
  is_upper c || ((97 <=? n)%nat && (n <=? 122)%nat) || ((48 <=? n)%nat && (n <=? 57)%nat)
  || (n =? 95)%nat || (n =? 46)%nat.

Fixpoint all_chars (P : ascii -> bool) (s : string) : bool :=
  match s with
  | EmptyString => true
  | String c s' => P c && all_chars P s'
  end.

(** A name made of letters, digits, underscores and dots. *)
Definition plain (s : string) : bool := all_chars word_char s.

Fixpoint has_char (c : ascii) (s : string) : bool :=
  match s with
  | EmptyString => false
  | String d s' => Ascii.eqb c d || has_char c s'
  end.

End PyStr.

(** Modelled from the spec: [utils.camel_to_snake] and [utils.camel_to_dot]
    are not part of the sources at hand. The spec (section 4.5) has the
    coordinator convert a handler's declared CamelCase name to the
    identifier used on the wire; they are taken as the usual conversion, a
    separator before every capital that is not the first character, and
    everything lowered. *)
Definition camel_to_snake (s : string) : string := PyStr.camel_go "_" true s.
Definition camel_to_dot (s : string) : string := PyStr.camel_go "." true s.

(** ** Data model *)

(** JSON values, as decoded from and encoded to frames. *)
#[warnings="-register-all"]
Inductive Json :=
| JNull
| JBool (b : bool)
| JNum (z : Z)
| JStr (s : string)
| JArr (l : list Json)
| JObj (o : gmap string Json).

(** Modelled from the spec: [signatures.ResponsePayload], the error kinds of
    section 7, each with the offending field where one applies. *)
Inductive ResponsePayload :=
| ActionNotExist
| PayloadSignatureWrong (required : string)
| ActionSignatureWrong (unexpected : string)
| RecipientNotExist
| ChannelLayerDisabled.

(** Modelled from the spec: [signatures.EventSystem] (SystemMeta, section 3). *)
Record EventSystem := {
  initiator_channel : string;
  initiator_user_id : option Z;
  event_id : string
}.

(** Modelled from the spec: [signatures.MessageSystem] (MessageMeta). *)
Record MessageSystem := {
  event_system : EventSystem;
  receiver_channel : string
}.

(** What a slot of a content dictionary holds: plain JSON, a serialized
    error payload (kept tagged by its kind), or serialized system metadata. *)
Inductive Value :=
| VJson (j : Json)
| VError (r : ResponsePayload)
| VSystem (s : EventSystem).

Abbreviation Dict := (gmap string Value).

(** Modelled from the spec: [signatures.Payload] objects, an ordered set of
    named fields, or one of the error payloads. *)
Inductive Payload :=
| PFields (fs : list (string * Json))
| PError (r : ResponsePayload).

(** A payload argument is either a [Payload] object or an already plain
    value ([payload: [Payload, dict]] in the source). *)
Inductive PayloadArg :=
| Obj (p : Payload)
| Raw (v : Value).

(** Modelled from the spec: [Payload.serialize], lossless to a plain mapping. *)
Definition Payload_serialize (p : Payload) : Value :=
  match p with
  | PFields fs => VJson (JObj (list_to_map fs))
  | PError r => VError r
  end.

Definition EventSystem_serialize (s : EventSystem) : Value := VSystem s.

(** Python truthiness of the values above. *)
Definition map_nonempty {A} (m : gmap string A) : bool :=
  match map_to_list m with [] => false | _ :: _ => true end.

Definition Json_truthy (j : Json) : bool :=
  match j with
  | JNull => false
  | JBool b => b
  | JNum z => negb (z =? 0)%Z
  | JStr s => negb (String.eqb s "")
  | JArr l => match l with [] => false | _ => true end
  | JObj o => map_nonempty o
  end.

Definition Value_truthy (v : Value) : bool :=
  match v with
  | VJson j => Json_truthy j
  | VError _ => true
  | VSystem _ => true
  end.

Definition PayloadArg_truthy (p : PayloadArg) : bool :=
  match p with
  | Obj _ => true
  | Raw v => Value_truthy v
  end.

(** Modelled from the spec: [signatures.Event], the envelope
    {name, system, payload}. Python does not check field types, so the
    fields hold whatever the caller passed. *)
Record Event := {
  ev_name : Value;
  ev_system : Value;
  ev_payload : PayloadArg
}.

Definition PayloadArg_plain (p : PayloadArg) : Value :=
  match p with
  | Obj p => Payload_serialize p
  | Raw v => v
  end.

(** Modelled from the spec: [Event.serialize], the frame shape of section 6. *)
Definition Event_serialize (e : Event) : Dict :=
  {[ "event" := ev_name e; "payload" := PayloadArg_plain (ev_payload e);
     "system" := ev_system e ]}.

(** Modelled from the spec: [Event.to_channels], the group publish payload of
    section 6; the keys are the ones [parse_content], [parse_payload] and
    [parse_message] read back. *)
Definition Event_to_channels (e : Event) : Dict :=
  {[ "type" := ev_name e; "payload" := PayloadArg_plain (ev_payload e);
     "system" := ev_system e ]}.

Record User := { user_id : option Z }.

Definition AnonymousUser : User := {| user_id := None |}.

(** Modelled from the spec: [signatures.TargetsEnum] (TargetClass). *)
Inductive TargetsEnum := for_all | for_user.

Definition TargetsEnum_eqb (a b : TargetsEnum) : bool :=
  match a, b with
  | for_all, for_all | for_user, for_user => true
  | _, _ => false
  end.

(** Exceptions the modelled code can raise. *)
Inductive Exn :=
| TypeError (msg : string)
| KeyError (key : string)
| IndexError (msg : string)
| ValueError (msg : string)
| AttributeError (msg : string).

Inductive Outcome (A : Type) :=
| Ret (a : A)
| Raise (e : Exn).
Arguments Ret {A} a.
Arguments Raise {A} e.

(** Modelled from the spec: the payload shapes declared in [signatures], a
    named, ordered set of fields. *)
Record PayloadType := {
  type_name : string;
  fields : list string
}.

Definition mem (k : string) (l : list string) : bool :=
  existsb (String.eqb k) l.

Fixpoint quoted_list_tail (l : list string) : string :=
  match l with
  | [] => ""
  | [a] => "and '" ++ a ++ "'"
  | a :: rest => "'" ++ a ++ "', " ++ quoted_list_tail rest
  end.

Definition quoted_list (l : list string) : string :=
  match l with
  | [] => ""
  | [a] => "'" ++ a ++ "'"
  | [a; b] => "'" ++ a ++ "' and '" ++ b ++ "'"
  | a :: rest => "'" ++ a ++ "', " ++ quoted_list_tail rest
  end.

(** The interpreter's message for required arguments left unbound. *)
Definition missing_message (f : string) (names : list string) : string :=
  match names with
  | [a] => f ++ "() missing 1 required positional argument: '" ++ a ++ "'"
  | _ => f ++ "() missing " ++ pretty (length names)
           ++ " required positional arguments: " ++ quoted_list names
  end.

(** The interpreter's message for a keyword no parameter takes. *)
Definition unexpected_message (f k : string) : string :=
  f ++ "() got an unexpected keyword argument '" ++ k ++ "'".

(** The interpreter's message for a keyword given twice at a call site. *)
Definition multiple_message (f k : string) : string :=
  f ++ "() got multiple values for keyword argument '" ++ k ++ "'".

(** The declared fields with the values a keyword mapping has for them, in
    the order they are declared. *)
Definition kept (kw : gmap string Json) (fs : list string) : list (string * Json) :=
  omap (fun f => pair f <$> kw !! f) fs.

(** Modelled from the spec: constructing a typed payload from a mapping
    (calling the payload type on the mapping's entries as keywords, the
    deserialization of section 4.2). The
    keywords are bound as a Python call binds them: a keyword that is no
    field fails first, then the fields left without a value; the failures
    are the interpreter's [TypeError]s, whose text [check_signature] reads.
    Of several keywords that are no field the interpreter names the one that
    arrives first; a [gmap] does not keep the order of arrival, so what is
    proved of this case takes exactly one such keyword. *)
Definition PayloadType_call (t : PayloadType) (kw : gmap string Json) : Outcome Payload :=
  match filter (fun k => negb (mem k (fields t))) (map_to_list kw).*1 with
  | k :: _ => Raise (TypeError (unexpected_message (type_name t ++ ".__init__") k))
  | [] =>
      match filter (fun f => bool_decide (kw !! f = None)) (fields t) with
      | [] => Ret (PFields (kept kw (fields t)))
      | absent => Raise (TypeError (missing_message (type_name t ++ ".__init__") absent))
      end
  end.

(** Modelled from the spec: the error payloads as keyword mappings, a minimal
    payload naming the offending field where one applies (section 6); the
    keys are the keywords the source passes. *)
Definition ResponsePayload_fields (r : ResponsePayload) : gmap string Json :=
  match r with
  | PayloadSignatureWrong f => {[ "required" := JStr f ]}
  | ActionSignatureWrong f => {[ "unexpected" := JStr f ]}
  | _ => ∅
  end.

(** The keyword mapping a double-star call unpacks from a value. *)
Definition Value_kwargs (v : Value) : Outcome (gmap string Json) :=
  match v with
  | VJson (JObj o) => Ret o
  | VError r => Ret (ResponsePayload_fields r)
  | _ => Raise (TypeError "argument after ** must be a mapping")
  end.

(** Modelled from the spec: the base [Payload] built from a mapping; it takes
    every entry as a field. *)
Definition Payload_new (v : Value) : Outcome Payload :=
  match v with
  | VJson (JObj o) => Ret (PFields (map_to_list o))
  | VError r => Ret (PError r)
  | _ => Raise (TypeError "argument after ** must be a mapping")
  end.

(** [getattr(payload, name, None)] *)
Definition Payload_getattr (p : option Payload) (name : string) : option Json :=
  match p with
  | None => None
  | Some (PFields fs) => snd <$> List.find (fun kv => String.eqb (fst kv) name) fs
  | Some (PError r) => ResponsePayload_fields r !! name
  end.

(** *** Routing message *)

Definition Resolver : Type := Json -> option User.

(** Modelled from the spec: the target resolver of section 4.3. Each populated
    lookup field is tried in order and the first user found wins. *)
Fixpoint resolve (table : gmap string Resolver) (lookup : list (string * option Json))
  : option User :=
  match lookup with
  | [] => None
  | (k, v) :: rest =>
      match v, table !! k with
      | Some j, Some r =>
          match r j with
          | Some u => Some u
          | None => resolve table rest
          end
      | _, _ => resolve table rest
      end
  end.

(** Modelled from the spec: [signatures.Message] (RoutingMessage, section 3),
    with the roles of section 4.4 step 1 and the before-activated flag. *)
Record Message := {
  msg_payload : option Payload;
  msg_system : MessageSystem;
  msg_user : User;
  msg_target : TargetsEnum;
  msg_lookup : list (string * option Json);
  target_user : option User;
  is_initiator : bool;
  is_target : bool;
  before_activated : bool
}.

Definition same_id (a b : option Z) : bool := bool_decide (a = b).

Definition Message_new (payload : option Payload) (system : MessageSystem) (user : User)
    (target : TargetsEnum) (table : gmap string Resolver)
    (lookup : list (string * option Json)) : Message :=
  let resolved := resolve table lookup in
  {| msg_payload := payload;
     msg_system := system;
     msg_user := user;
     msg_target := target;
     msg_lookup := lookup;
     target_user := resolved;
     is_initiator := same_id (user_id user) (initiator_user_id (event_system system));
     is_target :=
       match target, resolved with
       | for_all, _ => true
       | for_user, Some t => same_id (user_id user) (user_id t)
       | for_user, None => false
       end;
     before_activated := false |}.

Definition set_before_activated (b : bool) (m : Message) : Message :=
  {| msg_payload := msg_payload m; msg_system := msg_system m; msg_user := msg_user m;
     msg_target := msg_target m; msg_lookup := msg_lookup m;
     target_user := target_user m; is_initiator := is_initiator m;
     is_target := is_target m; before_activated := b |}.

(** Modelled from the spec: [message.before_activate()] marks the flag and
    [message.before_drop()] clears it. *)
Definition before_activate : Message -> Message := set_before_activated true.
Definition before_drop : Message -> Message := set_before_activated false.

(** *** Observable effects *)

Inductive HookKind := HBefore | HInitiator | HTarget.

Inductive Effect :=
| Transmit (content : Dict) (close : bool)    (* frame handed to the transport *)
| GroupSend (group : string) (message : Dict) (* channel_layer.group_send *)
| Print (line : string)
| Call (h : HookKind)                         (* a hook is invoked *)
| Invoke (handler : string) (content : Dict)  (* a method handler is called *)
| Activate                                    (* message.before_activate() *)
| Drop.                                       (* message.before_drop() *)

(** What a hook hands back: an [Event] or a plain dictionary. *)
Inductive Reply :=
| REvent (e : Event)
| RDict (d : Dict).

Definition Reply_truthy (r : Reply) : bool :=
  match r with
  | REvent _ => true
  | RDict d => map_nonempty d
  end.

Definition Reply_content (r : Reply) : Dict :=
  match r with
  | REvent e => Event_serialize e
  | RDict d => d
  end.

(** ** The consumer and its events *)

Section Engine.

(** Whatever the hooks of an application act on (a database, a cache). *)
Context {U : Type}.

Record World := {
  trace : list Effect;                  (* what has been done so far, oldest first *)
  uuid_stream : nat -> string;          (* the values uuid.uuid4() will yield *)
  uuid_next : nat;
  TargetResolver : gmap string Resolver; (* the module-level resolver table *)
  hook_state : U
}.

Definition M (A : Type) : Type := World -> Outcome A * World.

#[global] Instance M_ret : MRet M := fun A a w => (Ret a, w).

#[global] Instance M_bind : MBind M := fun A B f m w =>
  match m w with
  | (Ret a, w') => f a w'
  | (Raise e, w') => (Raise e, w')
  end.

Definition raise {A} (e : Exn) : M A := fun w => (Raise e, w).

Definition lift {A} (o : Outcome A) : M A := fun w => (o, w).

Definition emit (e : Effect) : M unit := fun w =>
  (Ret tt,
   {| trace := trace w ++ [e]; uuid_stream := uuid_stream w; uuid_next := uuid_next w;
      TargetResolver := TargetResolver w; hook_state := hook_state w |}).

Definition uuid4 : M string := fun w =>
  (Ret (uuid_stream w (uuid_next w)),
   {| trace := trace w; uuid_stream := uuid_stream w; uuid_next := S (uuid_next w);
      TargetResolver := TargetResolver w; hook_state := hook_state w |}).

(** A hook of an event: a callable on the message and the payload that acts
    on the application's state and may hand back a reply. The hooks are
    taken as returning callables that read the message they are given. *)
Definition Hook : Type := Message -> option Payload -> U -> option Reply * U.

(** The body [...] of the hooks [SimpleEvent] declares. *)
Definition pass : Hook := fun _ _ u => (None, u).

(** Invoking a hook, recorded in the trace. *)
Definition call (k : HookKind) (h : Hook) (m : Message) (p : option Payload)
  : M (option Reply) := fun w =>
  let '(r, u) := h m p (hook_state w) in
  (Ret r,
   {| trace := trace w ++ [Call k]; uuid_stream := uuid_stream w; uuid_next := uuid_next w;
      TargetResolver := TargetResolver w; hook_state := u |}).

(** A [SimpleEvent] subclass: its class attributes and overridden hooks. *)
Record EventClass := {
  cls_name : string;                          (* __name__ *)
  request_payload_type : option PayloadType;
  cls_target : TargetsEnum;
  cls_hidden : bool;
  before_catch : Hook;
  initiator_catch : Hook;
  target_catch : Hook
}.

(** An attribute found on a consumer by [getattr]: an event class, a class
    that is no event class, or a callable that is no class (a method, a
    function), of which the consumer only uses the truth value and whether
    it takes a new attribute. *)
Inductive Attr :=
| AEvent (cls : EventClass)
| AClass
| AOther (truthy settable : bool).

(** A consumer serving a connection. [channel] is what the library leaves
    on it when the connection opens: where a channel layer is configured,
    [self.channel_layer] is that layer and [self.channel_name] the name the
    layer handed out; where none is, [self.channel_layer] is [None] and the
    consumer has no attribute [channel_name].

    [broadcast_group] and [custom_target_resolver] are the settings as the
    consumer's methods read them; [attrs] holds the event classes, other
    classes and callables that [dir], [getattr] and [setattr] see. A
    consumer whose event classes alias to the name of a setting or of a
    method ([hide_events]) is not described by this record. *)
Record Consumer := {
  class_name : string;                    (* self.__class__.__name__ *)
  broadcast_group : option string;
  custom_target_resolver : gmap string Resolver;
  lookup_fields : list string;            (* LookupUser.Fields *)
  channel : option string;
  scope_user : User;                      (* self.scope['user'] *)
  attrs : gmap string Attr
}.

(** The truth value of [self.channel_layer]. *)
Definition channel_layer (self : Consumer) : bool :=
  match channel self with Some _ => true | None => false end.

(** The channel name of a consumer that has one. *)
Definition channel_name (self : Consumer) : string :=
  match channel self with Some name => name | None => "" end.

Definition with_attrs (c : Consumer) (a : gmap string Attr) : Consumer :=
  {| class_name := class_name c; broadcast_group := broadcast_group c;
     custom_target_resolver := custom_target_resolver c;
     lookup_fields := lookup_fields c; channel := channel c;
     scope_user := scope_user c; attrs := a |}.

(** [SimpleConsumer.Error] *)
Definition Error : EventClass :=
  {| cls_name := "Error"; request_payload_type := None; cls_target := for_all;
     cls_hidden := true; before_catch := pass; initiator_catch := pass;
     target_catch := pass |}.

(** Reading [self.channel_name]. *)
Definition self_channel_name (self : Consumer) : M string :=
  match channel self with
  | Some name => mret name
  | None => raise (AttributeError "object has no attribute 'channel_name'")
  end.

(** [SimpleConsumer.get_systems]; the arguments of [EventSystem] are
    evaluated in the order written. *)
Definition get_systems (self : Consumer) : M EventSystem :=
  name ← self_channel_name self;
  id ← uuid4;
  mret {| initiator_channel := name;
          initiator_user_id := user_id (scope_user self);
          event_id := id |}.

(** [SimpleConsumer.send_json]: the content, without its ['system'] entry,
    goes to the transport. *)
Definition send_json (self : Consumer) (content : Dict) (close : bool) : M unit :=
  let content :=
    match content !! "system" with
    | Some _ => delete "system" content
    | None => content
    end in
  emit (Transmit content close).

(** An instance of an event class; [self_hidden] is what [self.hidden]
    reads, the class attribute unless [parse_content] has set the
    instance's own. *)
Record SimpleEvent := {
  self_class : EventClass;
  self_consumer : Consumer;
  self_payload : PayloadArg;
  self_content : Dict;
  self_hidden : bool
}.

Definition with_content (self : SimpleEvent) (content : Dict) : SimpleEvent :=
  {| self_class := self_class self; self_consumer := self_consumer self;
     self_payload := self_payload self; self_content := content;
     self_hidden := self_hidden self |}.

Definition content_given (content : option Dict) : option Dict :=
  match content with
  | Some d => if map_nonempty d then Some d else None
  | None => None
  end.

(** [SimpleEvent.parse_content]; returns the content together with what
    [self.hidden] reads afterwards. *)
Definition parse_content (cls : EventClass) (consumer : Consumer)
    (content : option Dict) (payload : PayloadArg) : M (Dict * bool) :=
  let event_name := camel_to_dot (cls_name cls) in
  match content_given content with
  | Some d => mret (d, cls_hidden cls)
  | None =>
      system ← get_systems consumer;
      mret ({[ "type" := VJson (JStr event_name);
               "payload" := PayloadArg_plain payload;
               "system" := EventSystem_serialize system ]}, false)
  end.

Definition payload_or (payload : option PayloadArg) (default : PayloadArg) : PayloadArg :=
  match payload with
  | Some p => if PayloadArg_truthy p then p else default
  | None => default
  end.

(** [SimpleEvent.__init__], with what it does for a hidden event left as
    [reject]. [inherited] is the class attribute [consumer]. The result is
    [None] for the instance left without attributes by the early return. *)
Definition SimpleEvent_init_with (reject : Consumer -> M unit) (cls : EventClass)
    (inherited consumer : option Consumer) (content : option Dict)
    (payload : option PayloadArg) : M (option SimpleEvent) :=
  match (match consumer with Some c => Some c | None => inherited end) with
  | None =>
      _ ← emit (Print "Provide consumer instance for direct call event");
      mret None
  | Some c =>
      let payload := payload_or payload (Obj (PFields [])) in
      '(content, hidden) ← parse_content cls c content payload;
      let self := {| self_class := cls; self_consumer := c; self_payload := payload;
                     self_content := content; self_hidden := hidden |} in
      if hidden then _ ← reject c; mret (Some self) else mret (Some self)
  end.

(** [SimpleEvent.return_event]; the two [pop]s change [self.content]. *)
Definition return_event (self : SimpleEvent) (payload : option PayloadArg)
  : M (Event * SimpleEvent) :=
  let payload := payload_or payload (self_payload self) in
  let content := self_content self in
  match content !! "type" with
  | None => raise (KeyError "type")
  | Some name =>
      let content := delete "type" content in
      match content !! "system" with
      | None => raise (KeyError "system")
      | Some system =>
          mret ({| ev_name := name; ev_system := system; ev_payload := payload |},
                with_content self (delete "system" content))
      end
  end.

(** [SimpleEvent.fire] *)
Definition fire (self : SimpleEvent) (payload : option PayloadArg) : M SimpleEvent :=
  '(event, self) ← return_event self payload;
  _ ← send_json (self_consumer self) (Event_serialize event) false;
  mret self.

(** [self.Error(payload=..., consumer=self).fire()]. The error event is
    built without content, which is why its own hidden branch is never
    taken (see [direct_call_skips_reject]). *)
Definition Error_fire (self : Consumer) (r : ResponsePayload) : M unit :=
  event ← SimpleEvent_init_with (fun _ => mret tt) Error None (Some self) None
            (Some (Obj (PError r)));
  match event with
  | Some e => _ ← fire e None; mret tt
  | None => raise (AttributeError "'Error' object has no attribute 'content'")
  end.

(** [SimpleEvent.__init__] *)
Definition SimpleEvent_init : EventClass -> option Consumer -> option Consumer ->
    option Dict -> option PayloadArg -> M (option SimpleEvent) :=
  SimpleEvent_init_with (fun c => Error_fire c ActionNotExist).

(** [l[1]] *)
Definition item1 (l : list string) : M string :=
  match l with
  | _ :: x :: _ => mret x
  | _ => raise (IndexError "list index out of range")
  end.

(** [SimpleConsumer.check_signature]; [f] is the callable. *)
Definition check_signature {A} (self : Consumer) (f : M A) : M (option A * bool) :=
  fun w =>
    match f w with
    | (Ret data, w') => (Ret (Some data, false), w')
    | (Raise (TypeError e), w') =>
        (error ←
           (if PyStr.contains " missing " e
            then
              piece ← item1 (PyStr.split "argument: " e);
              let required := PyStr.replace "'" "" (PyStr.strip piece) in
              _ ← Error_fire self (PayloadSignatureWrong required);
              mret true
            else mret false);
         error ←
           (if PyStr.contains " unexpected " e
            then
              piece ← item1 (PyStr.split "argument" e);
              let unexpected := PyStr.replace "'" "" (PyStr.strip piece) in
              _ ← Error_fire self (ActionSignatureWrong unexpected);
              mret true
            else mret error);
         mret (None, error)) w'
    | (Raise other, w') => (Raise other, w')
    end.

(** [SimpleConsumer.parse_payload] *)
Definition parse_payload (self : Consumer) (content : Dict)
    (payload_type : option PayloadType) : M (option Payload * bool) :=
  match content !! "payload" with
  | None => raise (KeyError "payload")
  | Some v =>
      payload ← lift (Payload_new v);
      match payload_type with
      | Some t =>
          check_signature self
            (kw ← lift (Value_kwargs (Payload_serialize payload));
             lift (PayloadType_call t kw))
      | None => mret (Some payload, false)
      end
  end.

(** [TargetResolver.update(...)]: the entries given replace the table's. *)
Definition TargetResolver_update (custom : gmap string Resolver) : M unit := fun w =>
  (Ret tt,
   {| trace := trace w; uuid_stream := uuid_stream w; uuid_next := uuid_next w;
      TargetResolver := custom ∪ TargetResolver w; hook_state := hook_state w |}).

Definition TargetResolver_read : M (gmap string Resolver) := fun w =>
  (Ret (TargetResolver w), w).

(** [SimpleConsumer.parse_message] *)
Definition parse_message (self : Consumer) (target : TargetsEnum)
    (payload : option Payload) (content : Dict) : M Message :=
  _ ← TargetResolver_update (custom_target_resolver self);
  system ←
    match content !! "system" with
    | None => raise (KeyError "system")
    | Some (VSystem s) => mret s
    | Some _ => raise (TypeError "argument after ** must be a mapping")
    end;
  receiver ← self_channel_name self;
  table ← TargetResolver_read;
  mret (Message_new payload
          {| event_system := system; receiver_channel := receiver |}
          (scope_user self) target table
          (map (fun field => ("to_" ++ field, Payload_getattr payload ("to_" ++ field)))
               (lookup_fields self))).

(** The local function [before] of [send_broadcast]. *)
Definition before (do_before : option Hook) (payload : option Payload) (message : Message)
  : M (bool * Message) :=
  match do_before with
  | Some h =>
      if negb (before_activated message)
      then
        _ ← call HBefore h message payload;
        _ ← emit Activate;
        mret (true, before_activate message)
      else mret (false, message)
  | None => mret (false, message)
  end.

(** The local function [do_for] of [send_broadcast]; [do] is the hook the
    lambda applies to the message and the payload. The message is the one
    object the two roles share, so it is passed on. *)
Definition do_for (self : Consumer) (do_before : option Hook) (payload : option Payload)
    (k : HookKind) (do : Hook) (message : Message) : M Message :=
  '(activated, message) ← before do_before payload message;
  event ← call k do message payload;
  _ ← match event with
      | Some r => if Reply_truthy r then send_json self (Reply_content r) false else mret tt
      | None => mret tt
      end;
  if before_activated message && negb activated
  then _ ← emit Drop; mret (before_drop message)
  else mret message.

Definition recipient_missing (message : Message) : bool :=
  TargetsEnum_eqb (msg_target message) for_user
  && negb (bool_decide (is_Some (target_user message))).

(** [SimpleConsumer.send_broadcast] from the recipient check on, that is,
    once the local [message] exists. *)
Definition route (self : Consumer) (do_for_target do_for_initiator do_before : option Hook)
    (payload : option Payload) (message : Message) : M (option Message) :=
  if recipient_missing message && is_initiator message
  then _ ← Error_fire self RecipientNotExist; mret (Some message)
  else
    message ←
      match is_initiator message, do_for_initiator with
      | true, Some h => do_for self do_before payload HInitiator h message
      | _, _ => mret message
      end;
    message ←
      match is_target message, do_for_target with
      | true, Some h => do_for self do_before payload HTarget h message
      | _, _ => mret message
      end;
    mret (Some message).

(** [SimpleConsumer.send_broadcast]. The Python method returns nothing; the
    value here is its local [message] as it stands on return, [None] when
    the method returns before creating it. *)
Definition send_broadcast (self : Consumer) (content : Dict) (target : TargetsEnum)
    (do_for_target do_for_initiator do_before : option Hook)
    (payload_type : option PayloadType) : M (option Message) :=
  '(payload, error) ← parse_payload self content payload_type;
  if (error : bool) then mret None
  else
    message ← parse_message self target payload content;
    route self do_for_target do_for_initiator do_before payload message.

(** [SimpleEvent.fire_client] *)
Definition fire_client (self : SimpleEvent) : M (option Message) :=
  let cls := self_class self in
  send_broadcast (self_consumer self) (self_content self) (cls_target cls)
    (Some (target_catch cls)) (Some (initiator_catch cls)) (Some (before_catch cls))
    (request_payload_type cls).

Definition group_given (g : option string) : option string :=
  match g with
  | Some s => if String.eqb s "" then None else Some s
  | None => None
  end.

(** [SimpleConsumer.send_to_group]; [event] is [None] where the caller
    passes Python's [None]. The method of the channel layer is looked up
    before the arguments of the call are evaluated. *)
Definition send_to_group (self : Consumer) (event : option Event)
    (group_name : option string) : M unit :=
  if negb (channel_layer self)
  then raise (AttributeError "'NoneType' object has no attribute 'group_send'")
  else
    match event with
    | None => raise (AttributeError "'NoneType' object has no attribute 'to_channels'")
    | Some e =>
        let group := match group_given group_name with
                     | Some g => Some g
                     | None => broadcast_group self
                     end in
        match group with
        | Some g => emit (GroupSend g (Event_to_channels e))
        | None => raise (TypeError "Group name must be a valid unicode string")
        end
    end.

(** [SimpleEvent.fire_broadcast] *)
Definition fire_broadcast (self : SimpleEvent) (payload : option PayloadArg) : M SimpleEvent :=
  '(event, self) ← return_event self payload;
  _ ← send_to_group (self_consumer self) (Some event) None;
  mret self.

(** [channels.consumer.get_handler_name], the library function: the type of
    the message with its dots replaced by underscores; a message without a
    type, or a name with a leading underscore, is refused. *)
Definition get_handler_name (message : Dict) : M string :=
  match message !! "type" with
  | None => raise (ValueError "Incoming message has no 'type' attribute")
  | Some (VJson (JStr t)) =>
      let handler_name := PyStr.replace "." "_" t in
      if PyStr.startswith "_" handler_name
      then raise (ValueError "Malformed type in message (leading underscore)")
      else mret handler_name
  | Some _ => raise (AttributeError "object has no attribute 'replace'")
  end.

(** [getattr(self, name, None)] *)
Definition getattr (self : Consumer) (name : string) : option Attr := attrs self !! name.

Definition Attr_truthy (a : option Attr) : bool :=
  match a with
  | Some (AEvent _) => true
  | Some AClass => true
  | Some (AOther truthy _) => truthy
  | None => false
  end.

(** The call of [Event] on the frame's entries and the system metadata,
    all bound as keywords to the three fields of the envelope. As with
    [PayloadType_call], what is proved of a frame with keys the envelope
    does not take is proved for exactly one such key. *)
Definition Event_new (content : Dict) (system : EventSystem) : Outcome Event :=
  match content !! "system" with
  | Some _ => Raise (TypeError (multiple_message "Event" "system"))
  | None =>
      match filter (fun k => negb (mem k ["name"; "payload"])) (map_to_list content).*1 with
      | k :: _ => Raise (TypeError (unexpected_message "Event.__init__" k))
      | [] =>
          match content !! "name", content !! "payload" with
          | Some n, Some p =>
              Ret {| ev_name := n; ev_system := VSystem system; ev_payload := Raw p |}
          | _, _ =>
              Raise (TypeError (missing_message "Event.__init__"
                       (filter (fun f => bool_decide (content !! f = None))
                               ["name"; "payload"])))
          end
      end
  end.

(** [SimpleConsumer.receive_json] *)
Definition receive_json (self : Consumer) (content : Dict) : M unit :=
  if negb (channel_layer self)
  then Error_fire self ChannelLayerDisabled
  else
    match content !! "event" with
    | None => raise (KeyError "event")
    | Some ev =>
        let content := <["name" := ev]> (delete "event" content) in
        '(event, error) ← check_signature self
                            (system ← get_systems self; lift (Event_new content system));
        if (error : bool) then mret tt
        else
          found ←
            match event with
            | Some e =>
                handler_name ← get_handler_name (Event_to_channels e);
                let action_handler := getattr self handler_name in
                if Attr_truthy action_handler
                then
                  match action_handler with
                  | Some (AOther _ false) =>
                      raise (AttributeError "object has no attribute 'consumer'")
                  | _ => mret true
                  end
                else _ ← Error_fire self ActionNotExist; mret false
            | None => mret true
            end;
          if (found : bool)
          then
            match group_given (broadcast_group self) with
            | Some _ => send_to_group self event None
            | None =>
                emit (Print ("Broadcast group not specified for " ++ class_name self
                             ++ ", broadcast not sent"))
            end
          else mret tt
    end.

(** [dir(self)]: the attribute names, sorted. *)
Definition dir (self : Consumer) : list string :=
  merge_sort (fun a b => String.leb a b) (map_to_list (attrs self)).*1.

Definition is_event_class (a : option Attr) : bool :=
  match a with
  | Some (AEvent _) => true
  | _ => false
  end.

(** [SimpleConsumer.hide_events]: every event class among the public
    attributes that is not hidden becomes reachable under its snake-case
    name as well. The new attribute replaces whatever [getattr] found under
    that name before. *)
Definition hide_events (self : Consumer) : Consumer :=
  let attributes := filter (fun attr => negb (PyStr.startswith "_" attr)) (dir self) in
  let events := filter (fun e => is_event_class (getattr self e)) attributes in
  foldl (fun self event =>
           match getattr self event with
           | Some (AEvent event_class) =>
               if cls_hidden event_class then self
               else with_attrs self (<[camel_to_snake event := AEvent event_class]> (attrs self))
           | _ => self
           end)
        self events.

(** [SimpleConsumer.__init__], on the attributes the class declares. *)
Definition SimpleConsumer_init (self : Consumer) : Consumer := hide_events self.

(** The public attributes the body of [SimpleConsumer] gives every consumer
    apart from its settings: the nested event class [Error], the static
    method [inject_user] (a plain function, which takes new attributes) and
    the methods (bound methods, which do not). *)
Definition SimpleConsumer_attrs : gmap string Attr :=
  <["Error" := AEvent Error]>
    (<["inject_user" := AOther true true]>
       (list_to_map
          (map (fun name => (name, AOther true false))
             ["connect"; "after_connect"; "before_disconnect"; "disconnect"; "send_json";
              "cache_system"; "get_user"; "join_group"; "leave_group"; "get_systems";
              "receive"; "send"; "dispatch"; "receive_json"; "send_to_group";
              "check_signature"; "parse_payload"; "parse_message"; "send_broadcast";
              "hide_events"]))).

(** [SimpleConsumer.dispatch]. A handler that is a class and no event class
    is not called. What a handler that is a plain method does with the
    content is outside this file; its call is recorded. *)
Definition dispatch (self : Consumer) (content : Dict) : M (option Message) :=
  handler_name ← get_handler_name content;
  match getattr self handler_name with
  | Some (AEvent cls) =>
      event ← SimpleEvent_init cls None (Some self) (Some content) None;
      match event with
      | Some e => fire_client e
      | None => raise (AttributeError "object has no attribute 'content'")
      end
  | Some AClass => mret None
  | Some (AOther _ _) => _ ← emit (Invoke handler_name content); mret None
  | None => raise (TypeError "'NoneType' object is not callable")
  end.

End Engine.

Arguments World U : clear implicits.
Arguments M U A : clear implicits.
Arguments Hook U : clear implicits.
Arguments EventClass U : clear implicits.
Arguments Attr U : clear implicits.
Arguments Consumer U : clear implicits.
Arguments SimpleEvent U : clear implicits.

(** ** Vocabulary of the statements *)

Section Vocabulary.

Context {U : Type}.

(** The frame an error of kind [r] puts on the wire: the envelope of the
    [Error] event, without its system metadata. *)
Definition error_frame (r : ResponsePayload) : Dict :=
  {[ "event" := VJson (JStr "error"); "payload" := VError r ]}.

(** The world after [es] has been done and [n] identifiers drawn. *)
Definition advance (w : World U) (es : list Effect) (n : nat) : World U :=
  {| trace := trace w ++ es; uuid_stream := uuid_stream w; uuid_next := n + uuid_next w;
     TargetResolver := TargetResolver w; hook_state := hook_state w |}.

(** The hooks invoked in a stretch of the trace, in order. *)
Fixpoint hook_calls (es : list Effect) : list HookKind :=
  match es with
  | [] => []
  | Call k :: rest => k :: hook_calls rest
  | _ :: rest => hook_calls rest
  end.

(** How often the before-activated flag is set in a stretch of the trace. *)
Fixpoint activations (es : list Effect) : nat :=
  match es with
  | [] => 0
  | Activate :: rest => S (activations rest)
  | _ :: rest => activations rest
  end.

(** The frames handed to the transport and the group publishes. *)
Fixpoint transmitted (es : list Effect) : list Dict :=
  match es with
  | [] => []
  | Transmit d _ :: rest => d :: transmitted rest
  | _ :: rest => transmitted rest
  end.

Fixpoint published (es : list Effect) : list (string * Dict) :=
  match es with
  | [] => []
  | GroupSend g d :: rest => (g, d) :: published rest
  | _ :: rest => published rest
  end.

(** What [do_for] sends for the value a hook handed back. *)
Definition reply_effects (r : option Reply) : list Effect :=
  match r with
  | Some r =>
      if Reply_truthy r then [Transmit (delete "system" (Reply_content r)) false] else []
  | None => []
  end.

Definition given {A} (o : option A) : bool :=
  match o with Some _ => true | None => false end.

(** The well-formed inbound frame naming the event kind [name]. *)
Definition inbound_frame (name : string) (payload : gmap string Json) : Dict :=
  {[ "event" := VJson (JStr name); "payload" := VJson (JObj payload) ]}.

(** The handler [receive_json] finds for an event kind is the event class
    [cls]. *)
Definition handled_by (c : Consumer U) (name : string) (cls : EventClass U) : Prop :=
  PyStr.startswith "_" (PyStr.replace "." "_" name) = false
  ∧ getattr c (PyStr.replace "." "_" name) = Some (AEvent cls).

End Vocabulary.

(** ** A chat deployment, used to run the consumer on concrete frames *)

Module Chat.

(** The application state the hooks act on: how often messages were stored. *)
Definition world0 : World nat :=
  {| trace := []; uuid_stream := fun n => "uuid-" ++ pretty n; uuid_next := 0;
     TargetResolver := ∅; hook_state := 0 |}.

Definition store_message : Hook nat := fun _ _ u => (None, S u).

Definition acknowledge : Hook nat := fun _ _ u =>
  (Some (RDict {[ "event" := VJson (JStr "chat.sent");
                  "payload" := VJson (JObj ∅);
                  "system" := VJson JNull ]}), u).

Definition deliver : Hook nat := fun _ p u =>
  (Some (REvent {| ev_name := VJson (JStr "chat.message");
                   ev_system := VJson JNull;
                   ev_payload := match p with
                                 | Some p => Obj p
                                 | None => Raw (VJson JNull)
                                 end |}), u).

Definition ChatPayload : PayloadType := {| type_name := "ChatPayload"; fields := ["text"] |}.

Definition DirectPayload : PayloadType :=
  {| type_name := "DirectPayload"; fields := ["text"; "to_user_id"] |}.

Definition ChatSend : EventClass nat :=
  {| cls_name := "ChatSend"; request_payload_type := Some ChatPayload;
     cls_target := for_all; cls_hidden := false;
     before_catch := store_message; initiator_catch := acknowledge;
     target_catch := deliver |}.

Definition DirectMessage : EventClass nat :=
  {| cls_name := "DirectMessage"; request_payload_type := Some DirectPayload;
     cls_target := for_user; cls_hidden := false;
     before_catch := store_message; initiator_catch := acknowledge;
     target_catch := deliver |}.

(** The user directory: users 7 and 8 exist. *)
Definition by_user_id : Resolver := fun j =>
  match j with
  | JNum 7 => Some {| user_id := Some 7%Z |}
  | JNum 8 => Some {| user_id := Some 8%Z |}
  | _ => None
  end.

(** The consumer class as declared, for a connection of user [uid]. *)
Definition declared (uid : Z) (group : option string) (layer : bool) : Consumer nat :=
  {| class_name := "ChatConsumer"; broadcast_group := group;
     custom_target_resolver := {[ "to_user_id" := by_user_id ]};
     lookup_fields := ["user_id"];
     channel := if layer then Some ("chan." ++ pretty uid) else None;
     scope_user := {| user_id := Some uid |};
     attrs := <["ChatSend" := AEvent ChatSend]>
                (<["DirectMessage" := AEvent DirectMessage]> SimpleConsumer_attrs) |}.

Definition alice : Consumer nat := SimpleConsumer_init (declared 7 (Some "room") true).
Definition bob : Consumer nat := SimpleConsumer_init (declared 8 (Some "room") true).
Definition loner : Consumer nat := SimpleConsumer_init (declared 7 None true).
Definition offline : Consumer nat := SimpleConsumer_init (declared 7 None false).

(** A published message, as the channel layer delivers it to the members. *)
Definition delivered (type : string) (payload : gmap string Json) (from : Z) : Dict :=
  {[ "type" := VJson (JStr type); "payload" := VJson (JObj payload);
     "system" := VSystem {| initiator_channel := "chan." ++ pretty from;
                            initiator_user_id := Some from;
                            event_id := "uuid-0" |} ]}.

Definition hi : gmap string Json := {[ "text" := JStr "hi" ]}.

End Chat.

(** ** Vocabulary of the further statements *)

Section FurtherVocabulary.

Context {U : Type}.
Local Open Scope list_scope.
Implicit Types (w : World U) (c : Consumer U).

(** One turn of the loop of [hide_events]. *)
Definition alias_step c (event : string) : Consumer U :=
  match getattr c event with
  | Some (AEvent event_class) =>
      if cls_hidden event_class then c
      else with_attrs c (<[camel_to_snake event := AEvent event_class]> (attrs c))
  | _ => c
  end.

(** The attribute under [k] is an event class that is not hidden. *)
Definition visible_event c (k : string) : Prop :=
  ∃ cls, getattr c k = Some (AEvent cls) ∧ cls_hidden cls = false.

(** Under every name [getattr] finds on [c'] what it finds on [c], or an
    event class that is not hidden. *)
Definition aliased c c' : Prop :=
  ∀ k, getattr c' k = getattr c k ∨ visible_event c' k.

(** What a call has done: [w'] is [w] after [added], with the hooks' state
    untouched. *)
Definition extends (w w' : World U) (added : list Effect) : Prop :=
  trace w' = trace w ++ added ∧ hook_state w' = hook_state w.

Definition any {A} (l : list A) : bool :=
  match l with [] => false | _ :: _ => true end.

(** The frame of one of the two signature errors. *)
Definition signature_error (d : Dict) : Prop :=
  ∃ field, d = error_frame (PayloadSignatureWrong field)
           ∨ d = error_frame (ActionSignatureWrong field).

(** What one call of [receive_json] may have done. *)
Definition answered_or_published (added : list Effect) : Prop :=
  hook_calls added = []
  ∧ (published added = []
     ∨ transmitted added = [] ∧ ∃ g d, published added = [(g, d)]).

End FurtherVocabulary.

(** An event of the chat deployment, as [dispatch] builds it on Alice's
    connection from her own broadcast. *)
Module ChatEvents.

Import Chat.

Definition greeting : SimpleEvent nat :=
  {| self_class := ChatSend; self_consumer := alice;
     self_payload := Obj (PFields []);
     self_content := delivered "chat_send" hi 7;
     self_hidden := false |}.

Definition greeting_system : Value :=
  VSystem {| initiator_channel := "chan.7"; initiator_user_id := Some 7%Z;
             event_id := "uuid-0" |}.

(** A second consumer class of the deployment, for visitors: it declares no
    resolver of its own. *)
Definition guest : Consumer nat :=
  SimpleConsumer_init
    {| class_name := "GuestConsumer"; broadcast_group := Some "room";
       custom_target_resolver := ∅; lookup_fields := ["user_id"];
       channel := Some "chan.9"; scope_user := {| user_id := Some 9%Z |};
       attrs := <["ChatSend" := AEvent ChatSend]> SimpleConsumer_attrs |}.

End ChatEvents.

(** ** Facts about the string operations *)

Section StringFacts.

Import PyStr.

Lemma append_cons c s t : (String c s ++ t)%string = String c (s ++ t).
Proof. reflexivity. Qed.

Lemma append_empty s : (s ++ "")%string = s.
Proof. induction s as [| c s IH]; [done |]. by rewrite append_cons, IH. Qed.

Lemma startswith_app p s : startswith p (p ++ s) = true.
Proof.
  induction p as [| c p IH]; [done |]. rewrite append_cons. simpl.
  by rewrite Ascii.eqb_refl.
Qed.

Lemma startswith_self p : startswith p p = true.
Proof. rewrite <- (append_empty p) at 2. apply startswith_app. Qed.

Lemma contains_unfold sub s :
  contains sub s
  = startswith sub s || match s with EmptyString => false | String _ s' => contains sub s' end.
Proof. by destruct s. Qed.

Lemma startswith_contains sep s : startswith sep s = true → contains sep s = true.
Proof. intros H. by rewrite contains_unfold, H. Qed.

Lemma contains_app_r sub p s : contains sub s = true → contains sub (p ++ s) = true.
Proof.
  intros H. induction p as [| c p IH]; [done |].
  rewrite append_cons. simpl. rewrite IH. apply orb_true_r.
Qed.

Lemma contains_middle sub p s : contains sub (p ++ sub ++ s) = true.
Proof. apply contains_app_r, startswith_contains, startswith_app. Qed.

(** A pattern whose first character is none of the text's does not begin
    anywhere in it. *)
Lemma contains_skip c sub s t :
  has_char c s = false →
  contains (String c sub) (s ++ t) = contains (String c sub) t.
Proof.
  induction s as [| d s IH]; [done |]. rewrite append_cons. simpl.
  intros [Hd Hs]%orb_false_elim. rewrite Hd. simpl. by apply IH.
Qed.

Lemma all_chars_app P s t : all_chars P (s ++ t) = all_chars P s && all_chars P t.
Proof.
  induction s as [| c s IH]; [done |]. rewrite append_cons. simpl.
  by rewrite IH, andb_assoc.
Qed.

Lemma has_char_app c s t : has_char c (s ++ t) = has_char c s || has_char c t.
Proof.
  induction s as [| d s IH]; [done |]. rewrite append_cons. simpl.
  by rewrite IH, orb_assoc.
Qed.

(** A character [P] rejects is not in a string [P] accepts throughout. *)
Lemma has_char_rejected P c s : P c = false → all_chars P s = true → has_char c s = false.
Proof.
  intros Hc. induction s as [| d s IH]; [done |]. simpl.
  intros [Hd Hs]%andb_prop. rewrite (IH Hs), orb_false_r.
  destruct (Ascii.eqb_spec c d) as [-> |]; [congruence | done].
Qed.

(** Where a pattern begins in a concatenation: inside the first part, or
    across the seam. *)
Lemma startswith_seam sep s t :
  startswith sep (s ++ t) = true →
  startswith sep s = true ∨ ∃ r, sep = (s ++ r)%string ∧ startswith r t = true.
Proof.
  revert sep. induction s as [| c s IH]; intros sep H.
  - right. by exists sep.
  - destruct sep as [| a sep]; [by left |]. rewrite append_cons in H. simpl in H.
    destruct (Ascii.eqb_spec a c) as [-> |]; [| discriminate].
    destruct (IH _ H) as [Hl | (r & -> & Hr)].
    + left. simpl. by rewrite Ascii.eqb_refl.
    + right. exists r. by rewrite append_cons.
Qed.

(** The separator does not begin at the head of [s ++ t] when [s] is not
    empty, the separator occurs nowhere in [s], and the first character of
    [t] is none of the separator's. *)
Lemma startswith_blocked sep c s d t :
  contains sep (String c s) = false →
  has_char d sep = false →
  startswith sep (String c s ++ String d t) = false.
Proof.
  intros Hin Hd. destruct (startswith sep (String c s ++ String d t)) eqn:E; [| done].
  apply startswith_seam in E as [Hl | (r & -> & Hr)].
  - apply startswith_contains in Hl. congruence.
  - rewrite has_char_app in Hd. apply orb_false_elim in Hd as [_ Hd].
    destruct r as [| a r].
    + rewrite append_empty in Hin.
      pose proof (startswith_contains _ _ (startswith_self (String c s))). congruence.
    + simpl in Hr, Hd. destruct (Ascii.eqb_spec a d) as [-> |]; [| discriminate].
      rewrite Ascii.eqb_refl in Hd. discriminate.
Qed.

Lemma contains_tail sep c s : contains sep (String c s) = false → contains sep s = false.
Proof. simpl. by intros [_ ?]%orb_false_elim. Qed.

(** Splitting steps over a stretch in which the separator does not occur and
    which it cannot leave across the seam: the stretch joins the current
    piece. *)
Lemma split_go_over sep s cur d t :
  contains sep s = false →
  has_char d sep = false →
  split_go sep 0 cur (s ++ String d t) = split_go sep 0 (rev_onto s cur) (String d t).
Proof.
  revert cur. induction s as [| c s IH]; intros cur Hin Hd; [done |].
  rewrite append_cons.
  change (split_go sep 0 cur (String c (s ++ String d t))) with
    (if startswith sep (String c (s ++ String d t))
     then rev cur :: split_go sep (String.length sep - 1) EmptyString (s ++ String d t)
     else split_go sep 0 (String c cur) (s ++ String d t)).
  rewrite <- append_cons, (startswith_blocked _ _ _ _ _ Hin Hd).
  simpl. apply IH; [by eapply contains_tail | done].
Qed.

Lemma rev_onto_app s acc t : (rev_onto s acc ++ t)%string = rev_onto s (acc ++ t).
Proof.
  revert acc. induction s as [| c s IH]; intros acc; [done |]. simpl.
  by rewrite IH, append_cons.
Qed.

Lemma append_assoc s t u : ((s ++ t) ++ u)%string = (s ++ (t ++ u))%string.
Proof. induction s as [| c s IH]; [done |]. by rewrite !append_cons, IH. Qed.

Lemma rev_cons c s : rev (String c s) = (rev s ++ String c "")%string.
Proof. unfold rev. simpl. by rewrite rev_onto_app. Qed.

Lemma rev_rev_onto s acc : rev (rev_onto s acc) = (rev acc ++ s)%string.
Proof.
  revert acc. induction s as [| c s IH]; intros acc.
  - simpl. by rewrite append_empty.
  - simpl. by rewrite IH, rev_cons, append_assoc.
Qed.

Lemma rev_involutive s : rev (rev s) = s.
Proof. unfold rev at 2. by rewrite rev_rev_onto. Qed.

Lemma rev_app_char s c : rev (s ++ String c "") = String c (rev s).
Proof.
  rewrite <- (rev_involutive s) at 1. rewrite <- rev_cons. apply rev_involutive.
Qed.

(** Stripping leaves a string alone that neither begins nor ends with white
    space. *)
Lemma strip_quoted s : strip ("'" ++ s ++ "'") = ("'" ++ s ++ "'")%string.
Proof.
  unfold strip. rewrite append_cons. simpl lstrip.
  rewrite <- append_cons. change ("'" ++ s ++ "'")%string with (String "'" s ++ "'")%string.
  rewrite rev_app_char. simpl lstrip. rewrite <- rev_app_char. apply rev_involutive.
Qed.

Lemma replace_app old new s t :
  replace old new (s ++ t) = (replace old new s ++ replace old new t)%string.
Proof.
  induction s as [| c s IH]; [done |]. rewrite append_cons. simpl.
  destruct (Ascii.eqb c old); by rewrite IH, ?append_cons, ?append_assoc.
Qed.

Lemma replace_absent old new s : has_char old s = false → replace old new s = s.
Proof.
  induction s as [| c s IH]; [done |]. simpl. intros [Hc Hs]%orb_false_elim.
  rewrite Ascii.eqb_sym, Hc. by rewrite IH.
Qed.

(** Taking the quotes off a quoted name that has none inside. *)
Lemma unquote s :
  has_char "'" s = false → replace "'" "" ("'" ++ s ++ "'") = s.
Proof.
  intros H. rewrite !replace_app, (replace_absent _ _ _ H).
  change (replace "'" "" "'") with "". change ("" ++ s ++ "")%string with (s ++ "")%string.
  apply append_empty.
Qed.

Lemma append_nil_l s : ("" ++ s)%string = s.
Proof. reflexivity. Qed.

Lemma startswith_all_chars P sep s :
  startswith sep s = true → all_chars P s = true → all_chars P sep = true.
Proof.
  revert s. induction sep as [| a sep IH]; intros s; [done |].
  destruct s as [| c s]; [done |]. simpl.
  destruct (Ascii.eqb_spec a c) as [-> |]; [| done].
  intros Hs [Hc Hall]%andb_prop. by rewrite Hc, (IH _ Hs Hall).
Qed.

(** A separator with a character [P] rejects occurs nowhere in a string [P]
    accepts throughout. *)
Lemma contains_rejected P sep s :
  all_chars P sep = false → all_chars P s = true → contains sep s = false.
Proof.
  intros Hsep. induction s as [| c s IH]; intros Hs.
  - destruct sep; [done | reflexivity].
  - rewrite contains_unfold.
    destruct (startswith sep (String c s)) eqn:E.
    + rewrite (startswith_all_chars P _ _ E Hs) in Hsep. discriminate.
    + simpl in Hs. apply andb_prop in Hs as [_ Hs]. by rewrite (IH Hs).
Qed.

Lemma rev_onto_rev_onto s a b : rev_onto (rev_onto s a) b = rev_onto a (s ++ b).
Proof.
  revert a b. induction s as [| c s IH]; intros a b; [done |].
  simpl. by rewrite IH.
Qed.

Lemma missing_one_has_marker f a :
  contains " missing " (missing_message f [a]) = true.
Proof.
  unfold missing_message.
  change (f ++ "() missing 1 required positional argument: '" ++ a ++ "'")%string
    with (f ++ "()" ++ " missing " ++ "1 required positional argument: '" ++ a ++ "'")%string.
  rewrite <- append_assoc. apply contains_middle.
Qed.

Lemma missing_one_has_no_other_marker f a :
  plain f = true → plain a = true →
  contains " unexpected " (missing_message f [a]) = false.
Proof.
  intros Hf Ha. unfold missing_message.
  rewrite contains_skip by (by apply (has_char_rejected word_char)).
  rewrite !append_cons, append_nil_l. simpl.
  by rewrite contains_skip by (by apply (has_char_rejected word_char)).
Qed.

Lemma missing_one_split f a :
  plain f = true → plain a = true →
  split "argument: " (missing_message f [a])
  = [(f ++ "() missing 1 required positional ")%string; ("'" ++ a ++ "'")%string].
Proof.
  intros Hf Ha. unfold missing_message, split.
  rewrite !append_cons, append_nil_l.
  rewrite split_go_over; [| by apply (contains_rejected word_char) | done].
  simpl. f_equal.
  - unfold rev. simpl. by rewrite rev_onto_rev_onto.
  - rewrite split_go_over; [| by apply (contains_rejected word_char) | done].
    simpl. f_equal. rewrite rev_cons, rev_rev_onto. reflexivity.
Qed.





End StringFacts.

(** ** Properties *)

Section Properties.

Context {U : Type}.
Local Open Scope list_scope.
Implicit Types (w : World U) (c : Consumer U) (content : Dict).

(** *** Frames and error envelopes *)

Lemma send_json_run c content close w :
  send_json c content close w
  = (Ret tt, advance w [Transmit (delete "system" content) close] 0).
Proof.
  unfold send_json. destruct (content !! "system") eqn:E; [reflexivity |].
  by rewrite delete_id.
Qed.

(** *** The channel name *)

Lemma self_channel_name_run c w :
  channel_layer c = true →
  self_channel_name c w = (Ret (channel_name c), w).
Proof. unfold channel_layer, channel_name, self_channel_name. by destruct (channel c). Qed.

Lemma self_channel_name_unset c w :
  channel_layer c = false →
  self_channel_name c w
  = (Raise (AttributeError "object has no attribute 'channel_name'"), w).
Proof. unfold channel_layer, self_channel_name. by destruct (channel c). Qed.

(** The system metadata name the consumer's channel and user and carry a
    fresh identifier. *)
Lemma get_systems_run c w :
  channel_layer c = true →
  get_systems c w
  = (Ret {| initiator_channel := channel_name c;
            initiator_user_id := user_id (scope_user c);
            event_id := uuid_stream w (uuid_next w) |},
     {| trace := trace w; uuid_stream := uuid_stream w; uuid_next := S (uuid_next w);
        TargetResolver := TargetResolver w; hook_state := hook_state w |}).
Proof.
  intros H. unfold get_systems. unfold mbind, M_bind at 1.
  by rewrite (self_channel_name_run _ _ H).
Qed.

(** Without a channel layer there is no channel name to put into them. *)
Lemma get_systems_unset c w :
  channel_layer c = false →
  get_systems c w = (Raise (AttributeError "object has no attribute 'channel_name'"), w).
Proof.
  intros H. unfold get_systems. unfold mbind, M_bind at 1.
  by rewrite (self_channel_name_unset _ _ H).
Qed.

(** Firing an error puts exactly its frame on the wire and draws one event
    identifier. *)
Lemma Error_fire_run c r w :
  channel_layer c = true →
  Error_fire c r w = (Ret tt, advance w [Transmit (error_frame r) false] 1).
Proof.
  intros H. unfold Error_fire, SimpleEvent_init_with, parse_content. simpl.
  unfold mbind, M_bind at 1. unfold mbind, M_bind at 1. unfold mbind, M_bind at 1.
  rewrite (get_systems_run _ _ H). reflexivity.
Qed.

(** On a consumer without a channel layer the error event cannot be built:
    nothing is sent. *)
Lemma Error_fire_unset c r w :
  channel_layer c = false →
  Error_fire c r w = (Raise (AttributeError "object has no attribute 'channel_name'"), w).
Proof.
  intros H. unfold Error_fire, SimpleEvent_init_with, parse_content. simpl.
  unfold mbind, M_bind at 1. unfold mbind, M_bind at 1. unfold mbind, M_bind at 1.
  by rewrite (get_systems_unset _ _ H).
Qed.

(** C6: whatever content [send_json] is given, the frame handed to the
    transport has no ['system'] entry and agrees with the content on every
    other key; nothing else is done. *)
Theorem send_json_strips_system c content close w :
  ∃ sent,
    send_json c content close w = (Ret tt, advance w [Transmit sent close] 0)
    ∧ sent !! "system" = None
    ∧ ∀ k, k ≠ "system" → sent !! k = content !! k.
Proof.
  exists (delete "system" content). split; [apply send_json_run |].
  split; [apply lookup_delete_eq |].
  intros k Hk. by apply lookup_delete_ne.
Qed.

(** *** Events called directly *)

(** Without content the hidden branch of the constructor is never taken,
    whatever it would do. *)
Lemma direct_call_skips_reject reject reject' (cls : EventClass U) inherited c payload w :
  SimpleEvent_init_with reject cls inherited (Some c) None payload w
  = SimpleEvent_init_with reject' cls inherited (Some c) None payload w.
Proof.
  unfold SimpleEvent_init_with, parse_content. simpl.
  unfold mbind, M_bind, get_systems, self_channel_name.
  destruct (channel c); reflexivity.
Qed.

(** An event constructed without content on a consumer that has no channel
    name: the system metadata cannot be built and the constructor raises,
    before anything is sent. *)
Lemma direct_call_without_channel_name (cls : EventClass U) inherited c payload w :
  channel_layer c = false →
  SimpleEvent_init cls inherited (Some c) None payload w
  = (Raise (AttributeError "object has no attribute 'channel_name'"), w).
Proof.
  intros H. unfold SimpleEvent_init, SimpleEvent_init_with, parse_content. simpl.
  unfold mbind, M_bind at 1. unfold mbind, M_bind at 1.
  by rewrite (get_systems_unset _ _ H).
Qed.

(** C10, as amended: an event constructed with a consumer that has its
    channel name (passed in, or found on the class) and no content, hidden
    or not, gets [hidden] set to [False] on the instance and a synthesized
    envelope (type from the class name, the payload as given, fresh system
    metadata); nothing is sent, so no ActionNotExist rejection happens. *)
Theorem direct_call_is_never_rejected (cls : EventClass U) inherited c payload w :
  channel_layer c = true →
  let given := payload_or payload (Obj (PFields [])) in
  let system := {| initiator_channel := channel_name c;
                   initiator_user_id := user_id (scope_user c);
                   event_id := uuid_stream w (uuid_next w) |} in
  let built :=
    (Ret (Some {| self_class := cls; self_consumer := c; self_payload := given;
                  self_content :=
                    {[ "type" := VJson (JStr (camel_to_dot (cls_name cls)));
                       "payload" := PayloadArg_plain given;
                       "system" := VSystem system ]};
                  self_hidden := false |}),
     advance w [] 1) in
  SimpleEvent_init cls inherited (Some c) None payload w = built
  ∧ SimpleEvent_init cls (Some c) None None payload w = built.
Proof.
  intros H given system built. subst built.
  unfold SimpleEvent_init, SimpleEvent_init_with, parse_content. simpl.
  unfold mbind, M_bind. rewrite (get_systems_run _ _ H).
  unfold mret, M_ret, advance. simpl. by rewrite app_nil_r.
Qed.

(** An empty dictionary is as good as no content. *)
Lemma empty_content_is_no_content (cls : EventClass U) inherited consumer payload w :
  SimpleEvent_init cls inherited consumer (Some ∅) payload w
  = SimpleEvent_init cls inherited consumer None payload w.
Proof. reflexivity. Qed.

(** The other side of the hidden check: a hidden event constructed with
    content is answered with ActionNotExist. *)
Lemma hidden_call_with_content_is_rejected (cls : EventClass U) inherited c d payload w :
  channel_layer c = true →
  cls_hidden cls = true →
  map_nonempty d = true →
  ∃ self,
    SimpleEvent_init cls inherited (Some c) (Some d) payload w
    = (Ret (Some self), advance w [Transmit (error_frame ActionNotExist) false] 1)
    ∧ self_content self = d ∧ self_hidden self = true.
Proof.
  intros Hlayer Hh Hd. eexists.
  unfold SimpleEvent_init, SimpleEvent_init_with, parse_content, content_given.
  rewrite Hd, Hh. simpl. unfold mbind, M_bind at 1. unfold mret, M_ret at 1.
  unfold mbind, M_bind at 1. rewrite (Error_fire_run _ _ _ Hlayer).
  split; [reflexivity | by split].
Qed.

(** *** Inbound frames *)

Lemma receive_json_no_layer_run c content w :
  channel_layer c = false →
  receive_json c content w
  = (Raise (AttributeError "object has no attribute 'channel_name'"), w).
Proof.
  intros H. unfold receive_json. rewrite H. cbn [negb].
  apply (Error_fire_unset _ _ _ H).
Qed.

(** C8 (defect): with no channel layer configured the method sets out to
    answer with ChannelLayerDisabled, but the envelope of the error event
    needs the consumer's channel name, which exists only with a channel
    layer: the construction raises, and the sender is sent nothing. *)
Theorem receive_json_without_channel_layer c content w :
  channel_layer c = false →
  ∃ e,
    receive_json c content w = (Raise e, w)
    ∧ Error_fire c ChannelLayerDisabled w = (Raise e, w)
    ∧ e = AttributeError "object has no attribute 'channel_name'".
Proof.
  intros H. eexists.
  rewrite (receive_json_no_layer_run _ _ _ H), (Error_fire_unset _ _ _ H). done.
Qed.

(** *** The routing pass *)

Lemma hook_calls_app es1 es2 : hook_calls (es1 ++ es2) = hook_calls es1 ++ hook_calls es2.
Proof. induction es1 as [| [] es1 IH]; simpl; congruence. Qed.

Lemma activations_app es1 es2 : activations (es1 ++ es2) = activations es1 + activations es2.
Proof. induction es1 as [| [] es1 IH]; simpl; congruence. Qed.

Lemma set_before_activated_keep m b :
  before_activated m = b → set_before_activated b m = m.
Proof. intros <-. by destruct m. Qed.

Local Ltac do_for_done :=
  rewrite ?send_json_run; simpl; eexists _, _;
  (split; [reflexivity |]); simpl; rewrite <- ?app_assoc;
  (split; [reflexivity |]); done.

(** One role of a pass: the before hook runs if it is supplied and the flag
    is not yet set, then the role's hook; the flag is left set by the role
    that set it and cleared by a role that found it set. *)
Lemma do_for_run c (hb : option (Hook U)) p k h m w :
  let fresh := given hb && negb (before_activated m) in
  ∃ w' added,
    do_for c hb p k h m w = (Ret (set_before_activated fresh m), w')
    ∧ trace w' = trace w ++ added
    ∧ hook_calls added = (if fresh then [HBefore; k] else [k])
    ∧ activations added = (if fresh then 1 else 0).
Proof.
  intros fresh. subst fresh. unfold do_for, before.
  destruct hb as [hb |], (before_activated m) eqn:Hm; simpl;
    unfold mbind, M_bind, mret, M_ret, call, emit; simpl.
  - destruct (h m p (hook_state w)) as [r u] eqn:Hr. rewrite Hm. simpl.
    destruct r as [r |]; [destruct (Reply_truthy r) eqn:Ht |]; do_for_done.
  - destruct (hb m p (hook_state w)) as [r0 u0] eqn:Hr0. simpl.
    destruct (h (before_activate m) p u0) as [r u] eqn:Hr. simpl.
    destruct r as [r |]; [destruct (Reply_truthy r) eqn:Ht |]; do_for_done.
  - destruct (h m p (hook_state w)) as [r u] eqn:Hr. rewrite Hm. simpl.
    destruct r as [r |]; [destruct (Reply_truthy r) eqn:Ht |]; do_for_done.
  - destruct (h m p (hook_state w)) as [r u] eqn:Hr. rewrite Hm. simpl.
    rewrite (set_before_activated_keep m false Hm).
    destruct r as [r |]; [destruct (Reply_truthy r) eqn:Ht |]; do_for_done.
Qed.

(** A role that may or may not apply. *)
Lemma role_run c (hb : option (Hook U)) p k (applies : bool) (h : option (Hook U)) m w :
  let runs := applies && given h in
  let fresh := runs && given hb && negb (before_activated m) in
  ∃ w' added,
    (match applies, h with
     | true, Some h => do_for c hb p k h m
     | _, _ => mret m
     end) w
    = (Ret (set_before_activated
              (if runs then given hb && negb (before_activated m) else before_activated m)
              m), w')
    ∧ trace w' = trace w ++ added
    ∧ hook_calls added = (if runs then if fresh then [HBefore; k] else [k] else [])
    ∧ activations added = (if fresh then 1 else 0).
Proof.
  intros runs fresh. subst runs fresh.
  destruct applies, h as [h |]; simpl;
    try (exists w, []; rewrite set_before_activated_keep by done;
         rewrite app_nil_r; done).
  apply do_for_run.
Qed.

(** The pass from the recipient check on, where the check lets it through:
    which hooks run, in which order, how often the flag is set, and how
    the flag stands on return. *)
Lemma route_run c (ht hi hb : option (Hook U)) p m w :
  before_activated m = false →
  recipient_missing m && is_initiator m = false →
  let ri := is_initiator m && given hi in
  let rt := is_target m && given ht in
  ∃ w' added,
    route c ht hi hb p m w
    = (Ret (Some (set_before_activated (given hb && xorb ri rt) m)), w')
    ∧ trace w' = trace w ++ added
    ∧ hook_calls added
      = (if ri then if given hb then [HBefore; HInitiator] else [HInitiator] else [])
        ++ (if rt then if given hb && negb ri then [HBefore; HTarget] else [HTarget] else [])
    ∧ activations added = (if given hb && (ri || rt) then 1 else 0).
Proof.
  intros Hm Hgo ri rt. unfold route. rewrite Hgo.
  destruct (role_run c hb p HInitiator (is_initiator m) hi m w)
    as (w1 & a1 & E1 & T1 & C1 & A1).
  unfold mbind, M_bind at 1. rewrite E1. clear E1.
  set (m1 := set_before_activated _ m) in *.
  destruct (role_run c hb p HTarget (is_target m1) ht m1 w1)
    as (w2 & a2 & E2 & T2 & C2 & A2).
  unfold mbind, M_bind at 1. rewrite E2. clear E2.
  exists w2, (a1 ++ a2). unfold mret, M_ret.
  rewrite T2, T1, <- app_assoc, hook_calls_app, activations_app, C1, C2, A1, A2.
  subst m1 ri rt. simpl. rewrite Hm.
  destruct (is_initiator m), hi, (is_target m), ht, hb; simpl; done.
Qed.

(** The pass where the recipient check stops it. *)
Lemma route_abort c (ht hi hb : option (Hook U)) p m w :
  channel_layer c = true →
  recipient_missing m && is_initiator m = true →
  route c ht hi hb p m w
  = (Ret (Some m), advance w [Transmit (error_frame RecipientNotExist) false] 1).
Proof.
  intros Hlayer H. unfold route. rewrite H.
  unfold mbind, M_bind at 1. by rewrite (Error_fire_run _ _ _ Hlayer).
Qed.

(** A payload that passes the signature check was parsed without a trace. *)
Lemma check_signature_quiet {A} c (f : M U A) (o : Outcome A) w d w1 :
  f w = (o, w) →
  check_signature c f w = (Ret (d, false), w1) →
  w1 = w.
Proof.
  intros Hf. unfold check_signature. rewrite Hf.
  destruct o as [a | [e | | | |]]; try congruence.
  unfold item1.
  destruct (channel_layer c) eqn:Hlayer;
    destruct (PyStr.contains " missing " e), (PyStr.contains " unexpected " e),
      (PyStr.split "argument: " e) as [| ? [| piece ?]],
      (PyStr.split "argument" e) as [| ? [| piece' ?]];
    unfold mbind, M_bind, mret, M_ret, raise;
    rewrite ?(Error_fire_run _ _ _ Hlayer), ?(Error_fire_unset _ _ _ Hlayer);
    try congruence.
Qed.

Lemma parse_payload_quiet c content pt w p w1 :
  parse_payload c content pt w = (Ret (p, false), w1) → w1 = w.
Proof.
  unfold parse_payload. destruct (content !! "payload") as [v |]; [| discriminate].
  unfold mbind, M_bind at 1. unfold lift at 1.
  destruct (Payload_new v) as [payload | e]; [| discriminate].
  destruct pt as [t |]; [| unfold mret, M_ret; congruence].
  intros H.
  eapply (check_signature_quiet c _
            (match Value_kwargs (Payload_serialize payload) with
             | Ret kw => PayloadType_call t kw
             | Raise e => Raise e
             end)); [| exact H].
  unfold mbind, M_bind, lift.
  destruct (Value_kwargs (Payload_serialize payload)); reflexivity.
Qed.

Lemma parse_message_run c target p content w m w2 :
  parse_message c target p content w = (Ret m, w2) →
  trace w2 = trace w ∧ msg_target m = target ∧ before_activated m = false
  ∧ (is_target m = true → recipient_missing m = false)
  ∧ (target = for_user → target_user m = None → is_target m = false).
Proof.
  unfold parse_message, mbind, M_bind, TargetResolver_update, TargetResolver_read,
    self_channel_name, mret, M_ret, raise. simpl.
  destruct (content !! "system") as [[| | s] |]; try discriminate.
  destruct (channel c) as [name |]; [| discriminate].
  intros [= <- <-]. simpl. unfold recipient_missing. simpl.
  repeat split; try done.
  - destruct target; [done |]. by destruct (resolve _ _).
  - intros -> ->. done.
Qed.

(** A message is built only on a consumer that has its channel name, the
    receiving channel of the message; the hooks' state is not touched. *)
Lemma parse_message_layer c target p content w m w2 :
  parse_message c target p content w = (Ret m, w2) →
  channel_layer c = true ∧ hook_state w2 = hook_state w.
Proof.
  unfold parse_message, mbind, M_bind, TargetResolver_update, TargetResolver_read,
    self_channel_name, channel_layer, mret, M_ret, raise. simpl.
  destruct (content !! "system") as [[| | s] |]; try discriminate.
  destruct (channel c) as [name |]; [| discriminate].
  by intros [= <- <-].
Qed.

(** With a payload that parsed and a message that was built, the method is
    the pass on that message. *)
Lemma send_broadcast_route c content target (ht hi hb : option (Hook U)) pt w p m w2 :
  parse_payload c content pt w = (Ret (p, false), w) →
  parse_message c target p content w = (Ret m, w2) →
  send_broadcast c content target ht hi hb pt w = route c ht hi hb p m w2.
Proof.
  intros Hp Hm. unfold send_broadcast. unfold mbind, M_bind at 1. rewrite Hp.
  unfold mbind, M_bind at 1. by rewrite Hm.
Qed.


(** C2, as amended: the flag is set at most once in a pass; on return it
    is cleared when both role hooks ran, when none ran, when no before hook
    was supplied or when the pass stopped at the recipient check, and it
    is still set when exactly one role hook ran after a before hook. *)
Theorem before_flag_set_once c content target (ht hi hb : option (Hook U)) pt w p m w1 w2 :
  parse_payload c content pt w = (Ret (p, false), w1) →
  parse_message c target p content w1 = (Ret m, w2) →
  ∃ m' w' added,
    send_broadcast c content target ht hi hb pt w = (Ret (Some m'), w')
    ∧ trace w' = trace w ++ added
    ∧ (activations added ≤ 1)%nat
    ∧ before_activated m'
      = given hb
        && xorb (is_initiator m && given hi) (is_target m && given ht)
        && negb (recipient_missing m && is_initiator m).
Proof.
  intros Hp Hm.
  pose proof (parse_payload_quiet _ _ _ _ _ _ Hp) as ->.
  destruct (parse_message_run _ _ _ _ _ _ _ Hm) as (Htr & _ & Hflag & _ & _).
  rewrite (send_broadcast_route _ _ _ _ _ _ _ _ _ _ _ Hp Hm).
  destruct (parse_message_layer _ _ _ _ _ _ _ Hm) as [Hlayer _].
  destruct (recipient_missing m && is_initiator m) eqn:Hgo.
  - rewrite (route_abort _ _ _ _ _ _ _ Hlayer Hgo).
    eexists m, _, [Transmit (error_frame RecipientNotExist) false].
    split; [reflexivity |]. simpl. rewrite Htr, Hflag, andb_false_r.
    split; [done |]. split; [lia | done].
  - destruct (route_run c ht hi hb p m w2 Hflag Hgo) as (w' & added & E & T & _ & A).
    eexists _, w', added. split; [exact E |]. split; [congruence |].
    split; [rewrite A; case (given hb && _); lia |].
    simpl. by rewrite andb_true_r.
Qed.

(** C3: a pass for a direct event whose recipient did not resolve. On the
    initiator's connection exactly the RecipientNotExist envelope is sent
    and no hook is invoked; on any other connection nothing is sent and no
    hook is invoked either. *)
Theorem missing_recipient_stops_the_pass c content (ht hi hb : option (Hook U)) pt w p m w1 w2 :
  parse_payload c content pt w = (Ret (p, false), w1) →
  parse_message c for_user p content w1 = (Ret m, w2) →
  target_user m = None →
  ∃ w',
    send_broadcast c content for_user ht hi hb pt w = (Ret (Some m), w')
    ∧ hook_state w' = hook_state w
    ∧ trace w'
      = trace w ++ (if is_initiator m
                    then [Transmit (error_frame RecipientNotExist) false]
                    else []).
Proof.
  intros Hp Hm Hnone.
  pose proof (parse_payload_quiet _ _ _ _ _ _ Hp) as ->.
  destruct (parse_message_run _ _ _ _ _ _ _ Hm) as (Htr & Htarget & _ & _ & Hnot).
  rewrite (send_broadcast_route _ _ _ _ _ _ _ _ _ _ _ Hp Hm).
  destruct (parse_message_layer _ _ _ _ _ _ _ Hm) as [Hlayer Hst].
  assert (recipient_missing m = true) as Hmiss.
  { unfold recipient_missing. by rewrite Htarget, Hnone. }
  destruct (is_initiator m) eqn:Hi.
  - rewrite route_abort by (done || by rewrite Hmiss, Hi).
    eexists. split; [reflexivity |]. simpl. by rewrite Htr, Hst.
  - unfold route. rewrite Hmiss, Hi. simpl.
    unfold mbind, M_bind, mret, M_ret. rewrite (Hnot eq_refl Hnone).
    exists w2. split; [reflexivity |]. by rewrite Htr, Hst, app_nil_r.
Qed.

(** *** Payload construction *)

Lemma kept_cons (kw : gmap string Json) f fs :
  kept kw (f :: fs)
  = match kw !! f with Some v => (f, v) :: kept kw fs | None => kept kw fs end.
Proof. unfold kept. simpl. by destruct (kw !! f). Qed.

(** The fields a construction keeps, read back as a mapping. *)
Lemma kept_fields_lookup (kw : gmap string Json) fs k :
  (list_to_map (kept kw fs) : gmap string Json) !! k
  = if mem k fs then kw !! k else None.
Proof.
  induction fs as [| f fs IH]; [done |].
  change (mem k (f :: fs)) with (String.eqb k f || mem k fs).
  rewrite kept_cons.
  destruct (kw !! f) as [v |] eqn:Hf.
  - rewrite list_to_map_cons.
    destruct (String.eqb_spec k f) as [-> | Hne].
    + by rewrite lookup_insert_eq.
    + by rewrite lookup_insert_ne.
  - rewrite IH. destruct (String.eqb_spec k f) as [-> | Hne]; [| done].
    by destruct (mem f fs).
Qed.

(** C9: a mapping from which a typed payload can be constructed is what
    that payload serializes to. *)
Theorem payload_round_trip (t : PayloadType) (m : gmap string Json) (p : Payload) :
  PayloadType_call t m = Ret p →
  Payload_serialize p = VJson (JObj m).
Proof.
  unfold PayloadType_call.
  destruct (filter _ (map_to_list m).*1) as [| ? ?] eqn:Hextra; [| discriminate].
  destruct (filter _ (fields t)) as [| ? ?] eqn:Habsent; [| discriminate].
  intros [= <-]. simpl. do 2 f_equal. apply map_eq. intros k.
  rewrite kept_fields_lookup.
  destruct (mem k (fields t)) eqn:Hk; [done |].
  destruct (m !! k) as [v |] eqn:Hv; [| done].
  assert (k ∈ filter (fun k => negb (mem k (fields t))) (map_to_list m).*1) as Hin.
  { apply list_elem_of_filter. split; [by rewrite Hk |].
    apply list_elem_of_fmap. exists (k, v). split; [done |].
    by apply elem_of_map_to_list. }
  rewrite Hextra in Hin. by apply elem_of_nil in Hin.
Qed.

(** *** Frames on a connection without a broadcast group *)

Lemma inbound_frame_event name payload :
  inbound_frame name payload !! "event" = Some (VJson (JStr name)).
Proof. reflexivity. Qed.

Lemma Event_new_inbound name payload system :
  Event_new (<["name" := VJson (JStr name)]> (delete "event" (inbound_frame name payload)))
    system
  = Ret {| ev_name := VJson (JStr name); ev_system := VSystem system;
           ev_payload := Raw (VJson (JObj payload)) |}.
Proof. reflexivity. Qed.

Lemma get_handler_name_event (e : Event) name w :
  ev_name e = VJson (JStr name) →
  PyStr.startswith "_" (PyStr.replace "." "_" name) = false →
  get_handler_name (Event_to_channels e) w = (Ret (PyStr.replace "." "_" name), w).
Proof.
  intros Hname Hpublic. unfold get_handler_name.
  replace (Event_to_channels e !! "type") with (Some (ev_name e)) by reflexivity.
  by rewrite Hname, Hpublic.
Qed.

(** A well-formed frame naming a handled event kind, on a connection with a
    channel layer: the envelope is built, the handler is found, and the
    frame goes to the group if there is one. *)
Lemma receive_json_handled c name payload (cls : EventClass U) w :
  channel_layer c = true →
  handled_by c name cls →
  let system := {| initiator_channel := channel_name c;
                   initiator_user_id := user_id (scope_user c);
                   event_id := uuid_stream w (uuid_next w) |} in
  let event := {| ev_name := VJson (JStr name); ev_system := VSystem system;
                  ev_payload := Raw (VJson (JObj payload)) |} in
  receive_json c (inbound_frame name payload) w
  = match group_given (broadcast_group c) with
    | Some _ => send_to_group c (Some event) None (advance w [] 1)
    | None =>
        emit (Print ("Broadcast group not specified for " ++ class_name c
                     ++ ", broadcast not sent")%string) (advance w [] 1)
    end.
Proof.
  intros Hlayer [Hpublic Hattr] system event.
  unfold receive_json. rewrite Hlayer, inbound_frame_event. cbn [negb].
  unfold mbind, M_bind at 1. unfold check_signature.
  unfold mbind, M_bind at 1. rewrite (get_systems_run _ _ Hlayer). unfold lift at 1.
  rewrite Event_new_inbound.
  unfold mbind, M_bind at 1.
  unfold mbind, M_bind at 1.
  erewrite get_handler_name_event; [| reflexivity | exact Hpublic].
  rewrite Hattr. cbn [Attr_truthy]. unfold mret, M_ret at 1.
  replace (advance w [] 1) with
    {| trace := trace w; uuid_stream := uuid_stream w; uuid_next := S (uuid_next w);
       TargetResolver := TargetResolver w; hook_state := hook_state w |}
    by (unfold advance; by rewrite app_nil_r).
  by destruct (group_given (broadcast_group c)).
Qed.

(** C7, as amended: with a channel layer configured and no broadcast group,
    a well-formed frame naming a handled event kind is accepted; the sender
    is sent nothing, nothing is published, and the only thing done is the
    printed line. *)
Theorem frame_without_group_is_only_logged c name payload (cls : EventClass U) w :
  channel_layer c = true →
  group_given (broadcast_group c) = None →
  handled_by c name cls →
  ∃ w' line,
    receive_json c (inbound_frame name payload) w = (Ret tt, w')
    ∧ trace w' = trace w ++ [Print line].
Proof.
  intros Hlayer Hgroup Hhandled.
  rewrite (receive_json_handled _ _ _ _ _ Hlayer Hhandled), Hgroup.
  eexists _, _. split; [reflexivity |]. simpl. by rewrite app_nil_r.
Qed.

(** The rejection [receive_json] is written for: a name under which
    [getattr] finds nothing is answered with ActionNotExist, once, and is
    not published. *)
Lemma receive_json_unknown_name c name payload w :
  channel_layer c = true →
  PyStr.startswith "_" (PyStr.replace "." "_" name) = false →
  getattr c (PyStr.replace "." "_" name) = None →
  receive_json c (inbound_frame name payload) w
  = (Ret tt, advance w [Transmit (error_frame ActionNotExist) false] 2).
Proof.
  intros Hlayer Hpublic Hattr.
  unfold receive_json. rewrite Hlayer, inbound_frame_event. cbn [negb].
  unfold mbind, M_bind at 1. unfold check_signature.
  unfold mbind, M_bind at 1. rewrite (get_systems_run _ _ Hlayer). unfold lift at 1.
  rewrite Event_new_inbound.
  unfold mbind, M_bind at 1.
  unfold mbind, M_bind at 1.
  erewrite get_handler_name_event; [| reflexivity | exact Hpublic].
  rewrite Hattr. cbn [Attr_truthy].
  unfold mbind, M_bind at 1. rewrite (Error_fire_run _ _ _ Hlayer).
  unfold mret, M_ret, advance. simpl. reflexivity.
Qed.

(** *** What [check_signature] does with each outcome of the callable *)

Lemma check_signature_returned {A} c (f : M U A) w data w1 :
  f w = (Ret data, w1) →
  check_signature c f w = (Ret (Some data, false), w1).
Proof. intros H. unfold check_signature. by rewrite H. Qed.

(** An exception that is not a [TypeError] passes through. *)
Lemma check_signature_passes_on {A} c (f : M U A) w e w1 :
  f w = (Raise e, w1) →
  (∀ msg, e ≠ TypeError msg) →
  check_signature c f w = (Raise e, w1).
Proof.
  intros H Hne. unfold check_signature. rewrite H.
  destruct e; try done. by destruct (Hne msg).
Qed.

(** A [TypeError] whose text has neither marker is dropped: no data, no
    error, nothing sent, nothing raised. *)
Lemma check_signature_drops_other_type_errors {A} c (f : M U A) w msg w1 :
  f w = (Raise (TypeError msg), w1) →
  PyStr.contains " missing " msg = false →
  PyStr.contains " unexpected " msg = false →
  check_signature c f w = (Ret (None, false), w1).
Proof.
  intros H Hm Hu. unfold check_signature. by rewrite H, Hm, Hu.
Qed.

(** The failure the method is written for, one missing field: for a
    callable and a field with plain names the field is reported, once. *)
Lemma check_signature_reports_missing {A} c (f : M U A) fn a w w1 :
  channel_layer c = true →
  f w = (Raise (TypeError (missing_message fn [a])), w1) →
  PyStr.plain fn = true →
  PyStr.plain a = true →
  check_signature c f w
  = (Ret (None, true), advance w1 [Transmit (error_frame (PayloadSignatureWrong a)) false] 1).
Proof.
  intros Hlayer H Hfn Ha. unfold check_signature. rewrite H.
  rewrite missing_one_has_marker, (missing_one_has_no_other_marker _ _ Hfn Ha).
  rewrite (missing_one_split _ _ Hfn Ha).
  unfold item1, mbind, M_bind, mret, M_ret. cbv beta iota.
  rewrite strip_quoted, unquote by (by apply (has_char_rejected PyStr.word_char)).
  by rewrite (Error_fire_run _ _ _ Hlayer).
Qed.


Lemma payload_kwargs (m : gmap string Json) :
  Value_kwargs (Payload_serialize (PFields (map_to_list m))) = Ret m.
Proof. simpl. by rewrite list_to_map_to_list. Qed.

(** A payload with no key the type does not declare and exactly one
    declared field missing: the pass ends with the one
    PayloadSignatureWrong envelope naming the field, before any message is
    built or hook invoked. *)
Lemma send_broadcast_one_missing_field c content target (ht hi hb : option (Hook U))
    (t : PayloadType) (m : gmap string Json) a w :
  channel_layer c = true →
  content !! "payload" = Some (VJson (JObj m)) →
  filter (fun k => negb (mem k (fields t))) (map_to_list m).*1 = [] →
  filter (fun f => bool_decide (m !! f = None)) (fields t) = [a] →
  PyStr.plain (type_name t) = true →
  PyStr.plain a = true →
  send_broadcast c content target ht hi hb (Some t) w
  = (Ret None, advance w [Transmit (error_frame (PayloadSignatureWrong a)) false] 1).
Proof.
  intros Hlayer Hp Hextra Habsent Ht Ha.
  unfold send_broadcast, parse_payload. rewrite Hp.
  unfold mbind, M_bind at 1. unfold mbind, M_bind at 1. unfold lift at 1.
  cbn [Payload_new].
  erewrite check_signature_reports_missing; [reflexivity | exact Hlayer | | | exact Ha].
  - unfold mbind, M_bind, lift. rewrite payload_kwargs.
    unfold PayloadType_call. by rewrite Hextra, Habsent.
  - unfold PyStr.plain in *. by rewrite all_chars_app, Ht.
Qed.

(** *** Handlers found under any attribute name *)

(** Any event class [getattr] finds under the handler name of a frame gets
    the frame published, hidden or not. *)
Lemma handled_frame_is_published c name payload (cls : EventClass U) g w :
  channel_layer c = true →
  handled_by c name cls →
  group_given (broadcast_group c) = Some g →
  ∃ event,
    receive_json c (inbound_frame name payload) w
    = (Ret tt, advance w [GroupSend g (Event_to_channels event)] 1).
Proof.
  intros Hlayer Hhandled Hgroup.
  rewrite (receive_json_handled _ _ _ _ _ Hlayer Hhandled), Hgroup.
  eexists. unfold send_to_group. rewrite Hlayer. cbn [negb group_given].
  destruct (broadcast_group c) as [g' |] eqn:Hg; [| done].
  simpl in Hgroup. destruct (String.eqb g' ""); [done |]. injection Hgroup as ->.
  unfold emit, advance. simpl. rewrite <- app_assoc. reflexivity.
Qed.

End Properties.

(** ** Further properties of the consumer and its events *)

Section Further.

Context {U : Type}.
Local Open Scope list_scope.
Implicit Types (w : World U) (c : Consumer U) (content : Dict) (self : SimpleEvent U)
  (cls : EventClass U).

Lemma aliased_refl c : aliased c c.
Proof. intros k. by left. Qed.

Lemma alias_step_visible c event k : visible_event c k → visible_event (alias_step c event) k.
Proof.
  intros (cls & Hk & Hv). unfold alias_step.
  destruct (getattr c event) as [[ec | | ? ?] |]; try by exists cls.
  destruct (cls_hidden ec) eqn:Hh; [by exists cls |].
  unfold visible_event, getattr. simpl.
  destruct (decide (camel_to_snake event = k)) as [<- | Hne].
  - exists ec. by rewrite lookup_insert_eq.
  - exists cls. by rewrite lookup_insert_ne.
Qed.

Lemma alias_step_aliased c0 c event : aliased c0 c → aliased c0 (alias_step c event).
Proof.
  intros Hk. unfold alias_step.
  destruct (getattr c event) as [[ec | | ? ?] |] eqn:He; try done.
  destruct (cls_hidden ec) eqn:Hh; [done |].
  intros k.
  destruct (decide (camel_to_snake event = k)) as [<- | Hne].
  - right. exists ec. unfold getattr. simpl. by rewrite lookup_insert_eq.
  - destruct (Hk k) as [Heq | (cls & Hc & Hv)].
    + left. unfold getattr in *. simpl. by rewrite lookup_insert_ne.
    + right. exists cls. unfold getattr in *. simpl. by rewrite lookup_insert_ne.
Qed.

Lemma foldl_alias_aliased c0 c events :
  aliased c0 c → aliased c0 (foldl alias_step c events).
Proof.
  revert c. induction events as [| e events IH]; intros c H; [done |].
  simpl. by apply IH, alias_step_aliased.
Qed.

Lemma foldl_alias_visible c events k :
  visible_event c k → visible_event (foldl alias_step c events) k.
Proof.
  revert c. induction events as [| e events IH]; intros c H; [done |].
  simpl. by apply IH, alias_step_visible.
Qed.

Lemma hide_events_fold c :
  hide_events c
  = foldl alias_step c
      (filter (fun e => is_event_class (getattr c e))
         (filter (fun attr => negb (PyStr.startswith "_" attr)) (dir c))).
Proof. reflexivity. Qed.

(** Under every name, [getattr] finds after [hide_events] what it found
    before, or an event class that is not hidden; in particular no
    attribute is lost, and a hidden event class is reachable only under the
    names it had. *)
Theorem hide_events_only_adds_visible_events c :
  aliased c (hide_events c)
  ∧ ∀ k, is_Some (getattr c k) → is_Some (getattr (hide_events c) k).
Proof.
  assert (aliased c (hide_events c)) as H.
  { rewrite hide_events_fold. apply foldl_alias_aliased, aliased_refl. }
  split; [exact H |]. intros k Hk.
  destruct (H k) as [-> | (cls & -> & _)]; eauto.
Qed.

(** Every public attribute that is an event class and not hidden is
    reachable after [hide_events] under its snake-case name, which then
    holds an event class that is not hidden. *)
Theorem hide_events_aliases_public_events c name cls :
  getattr c name = Some (AEvent cls) →
  cls_hidden cls = false →
  PyStr.startswith "_" name = false →
  visible_event (hide_events c) (camel_to_snake name).
Proof.
  intros Hname Hvis Hpublic. rewrite hide_events_fold.
  set (events := filter _ _).
  assert (name ∈ events) as Hin.
  { subst events. apply list_elem_of_filter. split; [by rewrite Hname |].
    apply list_elem_of_filter. split; [by rewrite Hpublic |].
    unfold dir. rewrite merge_sort_Permutation.
    apply list_elem_of_fmap. exists (name, AEvent cls). split; [done |].
    by apply elem_of_map_to_list. }
  apply list_elem_of_split in Hin as (l1 & l2 & ->).
  rewrite foldl_app. simpl. apply foldl_alias_visible.
  pose proof (foldl_alias_aliased c c l1 (aliased_refl c)) as Hk.
  set (c1 := foldl alias_step c l1) in *.
  unfold alias_step.
  destruct (Hk name) as [Heq | (cls' & Hc' & Hv')].
  - rewrite Heq, Hname, Hvis. exists cls. unfold getattr. simpl.
    by rewrite lookup_insert_eq.
  - rewrite Hc', Hv'. exists cls'. unfold getattr. simpl. by rewrite lookup_insert_eq.
Qed.

Lemma return_event_run self payload w name system :
  self_content self !! "type" = Some name →
  self_content self !! "system" = Some system →
  return_event self payload w
  = (Ret ({| ev_name := name; ev_system := system;
             ev_payload := payload_or payload (self_payload self) |},
          with_content self (delete "system" (delete "type" (self_content self)))),
     w).
Proof.
  intros Ht Hs. unfold return_event. rewrite Ht.
  by rewrite lookup_delete_ne, Hs.
Qed.

(** [return_event] builds the event from the ['type'] and ['system'] entries
    of the content and takes both out of it; the other entries, the payload
    and the consumer of the instance stay. The payload of the event is the
    one passed if it is truthy, else the instance's own. *)
Theorem return_event_takes_type_and_system self payload w name system :
  self_content self !! "type" = Some name →
  self_content self !! "system" = Some system →
  ∃ self',
    return_event self payload w
    = (Ret ({| ev_name := name; ev_system := system;
               ev_payload := payload_or payload (self_payload self) |}, self'), w)
    ∧ self_content self' !! "type" = None
    ∧ self_content self' !! "system" = None
    ∧ (∀ k, k ≠ "type" → k ≠ "system" → self_content self' !! k = self_content self !! k)
    ∧ self_payload self' = self_payload self
    ∧ self_consumer self' = self_consumer self.
Proof.
  intros Ht Hs. eexists. split; [by apply return_event_run |]. simpl.
  split; [by rewrite lookup_delete_ne, lookup_delete_eq |].
  split; [by rewrite lookup_delete_eq |].
  split; [| done]. intros k H1 H2. by rewrite !lookup_delete_ne.
Qed.

Lemma return_event_inv self payload w event self' w' :
  return_event self payload w = (Ret (event, self'), w') →
  w' = w ∧ self_consumer self' = self_consumer self
  ∧ self_content self' !! "type" = None ∧ self_content self' !! "system" = None.
Proof.
  unfold return_event.
  destruct (self_content self !! "type") as [name |]; [| discriminate].
  destruct (delete "type" (self_content self) !! "system") as [system |] eqn:Hs;
    [| discriminate].
  intros [= <- <- <-]. simpl.
  split; [done |]. split; [done |].
  split; [by rewrite lookup_delete_ne, lookup_delete_eq | by rewrite lookup_delete_eq].
Qed.

Lemma return_event_spent self payload w :
  self_content self !! "type" = None →
  return_event self payload w = (Raise (KeyError "type"), w).
Proof. intros H. unfold return_event. by rewrite H. Qed.

Lemma fire_inv self payload w self' w' :
  fire self payload w = (Ret self', w') → self_content self' !! "type" = None.
Proof.
  unfold fire. unfold mbind, M_bind at 1.
  destruct (return_event self payload w) as [[[event self1] | e] w1] eqn:Hr; [| discriminate].
  apply return_event_inv in Hr as (_ & _ & Ht & _).
  unfold mbind, M_bind. destruct (send_json _ _ _ w1) as [[[] | ?] ?]; [| discriminate].
  by intros [= <- _].
Qed.

Lemma fire_broadcast_inv self payload w self' w' :
  fire_broadcast self payload w = (Ret self', w') → self_content self' !! "type" = None.
Proof.
  unfold fire_broadcast. unfold mbind, M_bind at 1.
  destruct (return_event self payload w) as [[[event self1] | e] w1] eqn:Hr; [| discriminate].
  apply return_event_inv in Hr as (_ & _ & Ht & _).
  unfold mbind, M_bind. destruct (send_to_group _ _ _ w1) as [[[] | ?] ?]; [| discriminate].
  by intros [= <- _].
Qed.

(** An event instance fires once: after [fire] or [fire_broadcast] has
    returned, the instance it leaves has no ['type'] left, and firing it
    again, either way, raises [KeyError] and sends nothing. *)
Theorem firing_again_raises self payload w self' w' :
  fire self payload w = (Ret self', w') ∨ fire_broadcast self payload w = (Ret self', w') →
  ∀ payload' w'',
    fire self' payload' w'' = (Raise (KeyError "type"), w'')
    ∧ fire_broadcast self' payload' w'' = (Raise (KeyError "type"), w'').
Proof.
  intros H payload' w''.
  assert (self_content self' !! "type" = None) as Ht.
  { destruct H as [H | H]; [by eapply fire_inv | by eapply fire_broadcast_inv]. }
  unfold fire, fire_broadcast, mbind, M_bind.
  by rewrite (return_event_spent _ _ _ Ht).
Qed.

(** [fire] hands one frame to the transport: the event name is the content's
    type, the payload the one passed if truthy, else the instance's own, and
    the system metadata is not in it. *)
Theorem fire_sends_the_envelope_without_system self payload w name system :
  self_content self !! "type" = Some name →
  self_content self !! "system" = Some system →
  ∃ self',
    fire self payload w
    = (Ret self',
       advance w
         [Transmit {[ "event" := name;
                      "payload" := PayloadArg_plain (payload_or payload (self_payload self)) ]}
            false] 0).
Proof.
  intros Ht Hs. eexists. unfold fire. unfold mbind, M_bind at 1.
  rewrite (return_event_run _ _ _ _ _ Ht Hs).
  unfold mbind, M_bind. unfold send_json, Event_serialize. simpl.
  reflexivity.
Qed.

(** [fire_broadcast] on a consumer with a channel layer publishes one
    message to the consumer's broadcast group: the whole envelope, system
    metadata included. *)
Theorem fire_broadcast_publishes_the_envelope self payload w name system g :
  channel_layer (self_consumer self) = true →
  self_content self !! "type" = Some name →
  self_content self !! "system" = Some system →
  group_given (broadcast_group (self_consumer self)) = Some g →
  ∃ self',
    fire_broadcast self payload w
    = (Ret self',
       advance w
         [GroupSend g
            {[ "type" := name;
               "payload" := PayloadArg_plain (payload_or payload (self_payload self));
               "system" := system ]}] 0).
Proof.
  intros Hlayer Ht Hs Hg. eexists. unfold fire_broadcast. unfold mbind, M_bind at 1.
  rewrite (return_event_run _ _ _ _ _ Ht Hs).
  unfold mbind, M_bind. unfold send_to_group. cbn [group_given with_content self_consumer].
  rewrite Hlayer. cbn [negb].
  destruct (broadcast_group (self_consumer self)) as [g' |] eqn:Hb; [| done].
  simpl in Hg. destruct (String.eqb g' ""); [done |]. injection Hg as ->.
  reflexivity.
Qed.

(** Constructing an event publishes nothing and invokes no hook, and unless
    the class is hidden and content is given it sends nothing. It raises
    only where it needs the channel name of a consumer that has none, and
    then nothing has been sent. *)
Theorem construction_is_silent_unless_hidden (cls : EventClass U) inherited consumer
    (content : option Dict) payload w :
  ∃ o w' added,
    SimpleEvent_init cls inherited consumer content payload w = (o, w')
    ∧ trace w' = trace w ++ added
    ∧ hook_calls added = []
    ∧ published added = []
    ∧ (cls_hidden cls = false ∨ content_given content = None → transmitted added = [])
    ∧ match o with
      | Ret _ => True
      | Raise e =>
          e = AttributeError "object has no attribute 'channel_name'"
          ∧ added = []
          ∧ ∃ c, match consumer with Some c => Some c | None => inherited end = Some c
                 ∧ channel_layer c = false
      end.
Proof.
  unfold SimpleEvent_init, SimpleEvent_init_with.
  destruct (match consumer with Some c => Some c | None => inherited end) as [c |].
  - destruct (channel_layer c) eqn:Hlayer.
    + unfold parse_content. destruct (content_given content) as [d |] eqn:Hd.
      * destruct (cls_hidden cls) eqn:Hh.
        -- unfold mbind, M_bind, mret, M_ret. rewrite (Error_fire_run _ _ _ Hlayer).
           eexists _, _, _. split; [reflexivity |]. split; [reflexivity |].
           repeat split. by intros [? | ?].
        -- unfold mbind, M_bind, mret, M_ret.
           eexists _, w, []. split; [reflexivity |]. by rewrite app_nil_r.
      * unfold mbind, M_bind. rewrite (get_systems_run _ _ Hlayer).
        unfold mret, M_ret.
        eexists _, _, []. split; [reflexivity |]. simpl. by rewrite app_nil_r.
    + unfold parse_content. destruct (content_given content) as [d |] eqn:Hd.
      * destruct (cls_hidden cls) eqn:Hh.
        -- unfold mbind, M_bind, mret, M_ret. rewrite (Error_fire_unset _ _ _ Hlayer).
           eexists _, w, []. split; [reflexivity |]. rewrite app_nil_r.
           repeat split; eauto.
        -- unfold mbind, M_bind, mret, M_ret.
           eexists _, w, []. split; [reflexivity |]. by rewrite app_nil_r.
      * unfold mbind, M_bind. rewrite (get_systems_unset _ _ Hlayer).
        eexists _, w, []. split; [reflexivity |]. rewrite app_nil_r.
        repeat split; eauto.
  - unfold mbind, M_bind, mret, M_ret, emit. simpl.
    eexists _, _, _. split; [reflexivity |]. split; [reflexivity |]. by repeat split.
Qed.

Lemma map_nonempty_lookup {A} (m : gmap string A) k v : m !! k = Some v → map_nonempty m = true.
Proof.
  intros H. unfold map_nonempty.
  destruct (map_to_list m) eqn:E; [| done].
  apply elem_of_map_to_list in H. rewrite E in H. by apply elem_of_nil in H.
Qed.

(** [dispatch] of a message whose type names an event class: the event is
    constructed on the message and fired to the client, that is, the
    routing pass runs with the class's hooks, target and payload type. For
    a hidden class ActionNotExist is sent first and the pass runs all the
    same. *)
Theorem dispatch_runs_the_pass c content (cls : EventClass U) type w :
  channel_layer c = true →
  content !! "type" = Some (VJson (JStr type)) →
  PyStr.startswith "_" (PyStr.replace "." "_" type) = false →
  getattr c (PyStr.replace "." "_" type) = Some (AEvent cls) →
  dispatch c content w
  = send_broadcast c content (cls_target cls)
      (Some (target_catch cls)) (Some (initiator_catch cls)) (Some (before_catch cls))
      (request_payload_type cls)
      (if cls_hidden cls
       then advance w [Transmit (error_frame ActionNotExist) false] 1
       else w).
Proof.
  intros Hlayer Htype Hpublic Hattr.
  unfold dispatch, get_handler_name. rewrite Htype, Hpublic.
  unfold mbind, M_bind at 1. unfold mret, M_ret at 1. rewrite Hattr.
  unfold SimpleEvent_init, SimpleEvent_init_with, parse_content, content_given.
  rewrite (map_nonempty_lookup _ _ _ Htype).
  unfold mbind, M_bind at 1. unfold mbind, M_bind at 1. unfold mret, M_ret at 1.
  destruct (cls_hidden cls).
  - unfold mbind, M_bind at 1. rewrite (Error_fire_run _ _ _ Hlayer). reflexivity.
  - reflexivity.
Qed.

(** A well-formed frame naming a handled event kind, on a connection with a
    channel layer and a broadcast group, is published once to that group
    with the name and the payload as received and with system metadata that
    names this connection and its user and carries a fresh event id; the
    sender is sent nothing. *)
Theorem receive_json_publishes_with_own_metadata c name payload (cls : EventClass U) g w :
  channel_layer c = true →
  handled_by c name cls →
  group_given (broadcast_group c) = Some g →
  receive_json c (inbound_frame name payload) w
  = (Ret tt,
     advance w
       [GroupSend g
          {[ "type" := VJson (JStr name);
             "payload" := VJson (JObj payload);
             "system" := VSystem {| initiator_channel := channel_name c;
                                    initiator_user_id := user_id (scope_user c);
                                    event_id := uuid_stream w (uuid_next w) |} ]}] 1).
Proof.
  intros Hlayer Hhandled Hgroup.
  rewrite (receive_json_handled _ _ _ _ _ Hlayer Hhandled), Hgroup.
  unfold send_to_group. rewrite Hlayer. cbn [negb group_given].
  destruct (broadcast_group c) as [g' |] eqn:Hg; [| done].
  simpl in Hgroup. destruct (String.eqb g' ""); [done |]. injection Hgroup as ->.
  unfold emit, advance. simpl. rewrite <- app_assoc. reflexivity.
Qed.



Lemma extends_refl w : extends w w [].
Proof. split; [by rewrite app_nil_r | done]. Qed.

Lemma extends_trans w w1 w2 a1 a2 :
  extends w w1 a1 → extends w1 w2 a2 → extends w w2 (a1 ++ a2).
Proof. intros [T1 S1] [T2 S2]. split; [by rewrite T2, T1, app_assoc | congruence]. Qed.

Lemma extends_advance w es n : extends w (advance w es n) es.
Proof. by split. Qed.

Lemma advance_twice w es1 n1 es2 n2 :
  advance (advance w es1 n1) es2 n2 = advance w (es1 ++ es2) (n2 + n1).
Proof. unfold advance. simpl. f_equal; [by rewrite app_assoc | lia]. Qed.

(** What the handler of [check_signature] does after a [TypeError]: it sends
    the signature errors [sent], none, one or both, and either returns the
    error flag, which tells whether any was sent, or fails on the split. *)
Lemma check_signature_handler {A} c (f : M U A) w msg w0 :
  f w = (Raise (TypeError msg), w0) →
  ∃ sent w1,
    extends w0 w1 (map (fun d => Transmit d false) sent)
    ∧ Forall signature_error sent
    ∧ (check_signature c f w = (Ret (None, any sent), w1)
       ∨ ∃ e, check_signature c f w = (Raise e, w1)).
Proof.
  intros Hf. unfold check_signature. rewrite Hf. unfold item1.
  destruct (channel_layer c) eqn:Hlayer;
    destruct (PyStr.contains " missing " msg), (PyStr.contains " unexpected " msg),
      (PyStr.split "argument: " msg) as [| ? [| piece ?]],
      (PyStr.split "argument" msg) as [| ? [| piece' ?]];
    unfold mbind, M_bind, mret, M_ret, raise;
    rewrite ?(Error_fire_run _ _ _ Hlayer), ?(Error_fire_unset _ _ _ Hlayer);
    rewrite ?advance_twice; cbn [app];
    lazymatch goal with
    | |- context [advance w0 [Transmit ?d1 _; Transmit ?d2 _] _] => exists [d1; d2]
    | |- context [advance w0 [Transmit ?d1 _] _] => exists [d1]
    | |- _ => exists []
    end;
    (eexists; (split; cycle 1);
     [ split;
       [ repeat constructor; eexists; first [left; reflexivity | right; reflexivity]
       | first [left; reflexivity | right; eexists; reflexivity] ]
     | first [apply extends_refl | apply extends_advance] ]).
Qed.

(** [check_signature] on a callable that leaves the state alone: the data
    is returned exactly when the callable returned, the error flag is set
    exactly when an envelope was sent, and what is sent is one or both of
    the signature errors, nothing else. *)
Theorem check_signature_flag_tells_what_was_sent {A} c (f : M U A) w o data error w1 :
  f w = (o, w) →
  check_signature c f w = (Ret (data, error), w1) →
  ∃ sent,
    extends w w1 (map (fun d => Transmit d false) sent)
    ∧ Forall signature_error sent
    ∧ error = any sent
    ∧ (∀ a, data = Some a ↔ o = Ret a).
Proof.
  intros Hf Hc. destruct o as [a | e].
  - rewrite (check_signature_returned _ _ _ _ _ Hf) in Hc. injection Hc as <- <- <-.
    exists []. split; [apply extends_refl |]. split; [constructor |]. split; [done |].
    intros a'. split; congruence.
  - destruct e as [msg | | | |];
      try (rewrite (check_signature_passes_on _ _ _ _ _ Hf) in Hc; [discriminate | done]).
    destruct (check_signature_handler c f w msg w Hf) as (sent & w1' & He & Hk & [H | [e H]]);
      rewrite H in Hc; [| discriminate].
    injection Hc as <- <- <-. exists sent.
    split; [exact He |]. split; [exact Hk |]. split; [done |].
    intros a. split; discriminate.
Qed.

Lemma transmitted_map_Transmit (sent : list Dict) :
  published (map (fun d => Transmit d false) sent) = []
  ∧ hook_calls (map (fun d => Transmit d false) sent) = []
  ∧ transmitted (map (fun d => Transmit d false) sent) = sent.
Proof. induction sent as [| d sent (? & ? & ?)]; simpl; [done |]. by repeat split; f_equal. Qed.

(** Whatever the frame, [receive_json] invokes no hook and leaves the hooks'
    state alone, publishes at most one message, and publishes only when it
    has sent the sender nothing. *)
Theorem receive_json_answers_or_publishes c content w :
  ∃ added,
    extends w (snd (receive_json c content w)) added ∧ answered_or_published added.
Proof.
  unfold receive_json. destruct (channel_layer c) eqn:Hlayer; cbn [negb].
  2: { rewrite (Error_fire_unset _ _ _ Hlayer). exists []. split; [apply extends_refl |].
       split; [done | by left]. }
  destruct (content !! "event") as [ev |].
  2: { exists []. split; [apply extends_refl |]. split; [done | by left]. }
  set (content' := <["name" := ev]> (delete "event" content)).
  set (f := system ← get_systems c; lift (Event_new content' system)).
  set (w0 := {| trace := trace w; uuid_stream := uuid_stream w; uuid_next := S (uuid_next w);
                TargetResolver := TargetResolver w; hook_state := hook_state w |}).
  assert (extends w w0 []) as Hw0 by (split; [by rewrite app_nil_r | done]).
  assert (∃ o, f w = (o, w0)) as [o Hf].
  { subst f. unfold mbind, M_bind. rewrite (get_systems_run _ _ Hlayer). by eexists. }
  unfold mbind, M_bind at 1.
  destruct o as [e | ex].
  - rewrite (check_signature_returned _ _ _ _ _ Hf).
    unfold mbind, M_bind at 1. unfold mbind, M_bind at 1.
    unfold get_handler_name.
    destruct (Event_to_channels e !! "type") as [[[] | |] |];
      try (exists []; split; [exact Hw0 |]; split; [done | by left]).
    destruct (PyStr.startswith "_" _);
      [exists []; split; [exact Hw0 |]; split; [done | by left] |].
    unfold mret, M_ret at 1.
    destruct (getattr c _) as [[cls | | truthy settable] |]; cbn [Attr_truthy].
    + unfold mret, M_ret at 1. destruct (group_given (broadcast_group c)).
      * unfold send_to_group. rewrite Hlayer. cbn [negb group_given].
        destruct (broadcast_group c);
          [| exists []; split; [exact Hw0 |]; split; [done | by left]].
        eexists [_]. split; [split; reflexivity |]. split; [done |]. right. eauto.
      * eexists [_]. split; [split; reflexivity |]. split; [done | by left].
    + unfold mret, M_ret at 1. destruct (group_given (broadcast_group c)).
      * unfold send_to_group. rewrite Hlayer. cbn [negb group_given].
        destruct (broadcast_group c);
          [| exists []; split; [exact Hw0 |]; split; [done | by left]].
        eexists [_]. split; [split; reflexivity |]. split; [done |]. right. eauto.
      * eexists [_]. split; [split; reflexivity |]. split; [done | by left].
    + destruct truthy.
      * destruct settable.
        -- unfold mret, M_ret at 1. destruct (group_given (broadcast_group c)).
           ++ unfold send_to_group. rewrite Hlayer. cbn [negb group_given].
              destruct (broadcast_group c);
                [| exists []; split; [exact Hw0 |]; split; [done | by left]].
              eexists [_]. split; [split; reflexivity |]. split; [done |]. right. eauto.
           ++ eexists [_]. split; [split; reflexivity |]. split; [done | by left].
        -- exists []. split; [exact Hw0 |]. split; [done | by left].
      * unfold mbind, M_bind at 1. rewrite (Error_fire_run _ _ _ Hlayer). unfold mret, M_ret.
        eexists [_]. split; [split; reflexivity |]. split; [done | by left].
    + unfold mbind, M_bind at 1. rewrite (Error_fire_run _ _ _ Hlayer). unfold mret, M_ret.
      eexists [_]. split; [split; reflexivity |]. split; [done | by left].
  - destruct ex as [msg | | | |];
      try (rewrite (check_signature_passes_on _ _ _ _ _ Hf) by done;
           exists []; split; [exact Hw0 |]; split; [done | by left]).
    destruct (check_signature_handler c f w msg w0 Hf)
      as (sent & w1 & He & _ & [H | [e H]]); rewrite H;
      destruct (transmitted_map_Transmit sent) as (Hp & Hh & Ht).
    + destruct sent as [| d sent]; cbn [any].
      * unfold mbind, M_bind at 1. unfold mret, M_ret at 1.
        destruct (group_given (broadcast_group c)).
        -- unfold send_to_group. rewrite Hlayer. cbn [negb].
           exists []. split; [| split; [done | by left]].
           simpl in He. eapply (extends_trans _ _ _ [] []); [exact Hw0 | exact He].
        -- eexists [Print _]. split; [| split; [done | by left]].
           eapply (extends_trans _ _ _ [] [_]); [exact Hw0 |].
           destruct He as [He1 He2]. simpl in He1. rewrite app_nil_r in He1.
           split; simpl; [by rewrite He1 | done].
      * unfold mret, M_ret. eexists. split.
        -- eapply (extends_trans _ _ _ []); [exact Hw0 | exact He].
        -- split; [exact Hh | left; exact Hp].
    + eexists. split.
      * eapply (extends_trans _ _ _ []); [exact Hw0 | exact He].
      * split; [exact Hh | left; exact Hp].
Qed.

Lemma parse_message_state c target p content w m w2 :
  parse_message c target p content w = (Ret m, w2) →
  extends w w2 [] ∧ uuid_next w2 = uuid_next w.
Proof.
  unfold parse_message, mbind, M_bind, TargetResolver_update, TargetResolver_read,
    self_channel_name, mret, M_ret, raise. simpl.
  destruct (content !! "system") as [[| | s] |]; try discriminate.
  destruct (channel c) as [name |]; [| discriminate].
  intros [= _ <-]. split; [split |]; simpl; [by rewrite app_nil_r | done | done].
Qed.


(** A pass on a connection whose user is neither the initiator nor a target
    does nothing: no hook, no frame, the hooks' state as it was. *)
Theorem bystander_pass_is_silent c content target (ht hi hb : option (Hook U)) pt w p m w1 w2 :
  parse_payload c content pt w = (Ret (p, false), w1) →
  parse_message c target p content w1 = (Ret m, w2) →
  is_initiator m = false →
  is_target m = false →
  ∃ w',
    send_broadcast c content target ht hi hb pt w = (Ret (Some m), w')
    ∧ trace w' = trace w
    ∧ hook_state w' = hook_state w
    ∧ uuid_next w' = uuid_next w.
Proof.
  intros Hp Hm Hi Ht.
  pose proof (parse_payload_quiet _ _ _ _ _ _ Hp) as ->.
  destruct (parse_message_state _ _ _ _ _ _ _ Hm) as ([Htr Hst] & Hid).
  rewrite (send_broadcast_route _ _ _ _ _ _ _ _ _ _ _ Hp Hm).
  unfold route. rewrite Hi, andb_false_r. unfold mbind, M_bind, mret, M_ret. rewrite Ht.
  exists w2. rewrite app_nil_r in Htr. by repeat split.
Qed.

(** A pass on a connection whose user is a target and not the initiator, with
    the before hook and the target hook supplied. The before hook runs on
    the message as built; what it returns is dropped. The target hook runs
    next, on the message with the flag set and on the state the before hook
    left; what it returns, if truthy, is the one frame sent, without its
    system entry. *)
Theorem target_pass_runs_before_then_target c content target (ht hb : Hook U)
    (hi : option (Hook U)) pt w p m w1 w2 :
  parse_payload c content pt w = (Ret (p, false), w1) →
  parse_message c target p content w1 = (Ret m, w2) →
  is_initiator m = false →
  is_target m = true →
  let prepared := hb m p (hook_state w) in
  let answered := ht (before_activate m) p (snd prepared) in
  ∃ w',
    send_broadcast c content target (Some ht) hi (Some hb) pt w
    = (Ret (Some (before_activate m)), w')
    ∧ trace w' = trace w ++ [Call HBefore; Activate; Call HTarget] ++ reply_effects (fst answered)
    ∧ hook_state w' = snd answered.
Proof.
  intros Hp Hm Hi Ht prepared answered.
  pose proof (parse_payload_quiet _ _ _ _ _ _ Hp) as ->.
  destruct (parse_message_state _ _ _ _ _ _ _ Hm) as ([Htr Hst] & Hid).
  destruct (parse_message_run _ _ _ _ _ _ _ Hm) as (_ & _ & Hflag & _ & _).
  rewrite (send_broadcast_route _ _ _ _ _ _ _ _ _ _ _ Hp Hm).
  rewrite app_nil_r in Htr.
  unfold route. rewrite Hi, andb_false_r. unfold mbind, M_bind at 1. unfold mret, M_ret at 1.
  rewrite Ht. unfold do_for, before. rewrite Hflag. cbn [negb].
  subst prepared answered. rewrite <- Hst.
  unfold mbind, M_bind, mret, M_ret, call, emit. simpl.
  destruct (hb m p (hook_state w2)) as [rb u1]. simpl.
  destruct (ht (before_activate m) p u1) as [r u2]. simpl.
  destruct r as [r |]; [destruct (Reply_truthy r) eqn:Hr |];
    unfold reply_effects; simpl; rewrite ?Hr;
    rewrite ?send_json_run; simpl;
    (eexists; split; [reflexivity |]); simpl; rewrite <- ?app_assoc, Htr; simpl;
    try (destruct (Reply_content r !! "system") eqn:Hsys; [| rewrite (delete_id _ _ Hsys)]);
    (split; [reflexivity | reflexivity]).
Qed.

(** What the construction of a typed payload returns when it succeeds, and
    that the mapping then has no key beside the declared fields. *)
Lemma accepted_payload (t : PayloadType) (m : gmap string Json) p :
  PayloadType_call t m = Ret p →
  p = PFields (kept m (fields t)) ∧ ∀ k, mem k (fields t) = false → m !! k = None.
Proof.
  unfold PayloadType_call.
  destruct (filter _ (map_to_list m).*1) as [| ? ?] eqn:Hextra; [| discriminate].
  destruct (filter _ (fields t)) as [| ? ?] eqn:Habsent; [| discriminate].
  intros [= <-]. split; [done |]. intros k Hk.
  destruct (m !! k) as [v |] eqn:Hv; [| done].
  assert (k ∈ filter (fun k => negb (mem k (fields t))) (map_to_list m).*1) as Hin.
  { apply list_elem_of_filter. split; [by rewrite Hk |].
    apply list_elem_of_fmap. exists (k, v). split; [done |].
    by apply elem_of_map_to_list. }
  rewrite Hextra in Hin. by apply elem_of_nil in Hin.
Qed.

Lemma getattr_kept (m : gmap string Json) fs name :
  Payload_getattr (Some (PFields (kept m fs))) name = if mem name fs then m !! name else None.
Proof.
  induction fs as [| f fs IH]; [done |].
  change (mem name (f :: fs)) with (String.eqb name f || mem name fs).
  rewrite kept_cons. destruct (m !! f) as [v |] eqn:Hf.
  - simpl. rewrite String.eqb_sym. destruct (String.eqb_spec name f) as [-> | Hne]; [done |].
    exact IH.
  - rewrite IH. destruct (String.eqb_spec name f) as [-> | Hne]; [| done].
    simpl. rewrite Hf. by destruct (mem f fs).
Qed.

(** A payload its type accepts is returned as the typed payload with the
    error flag off, nothing is sent and the state is as it was; and the
    attributes of the payload read back the frame's values, [None] for a key
    the frame does not have. *)
Theorem parse_payload_accepts c content (t : PayloadType) (m : gmap string Json) p w :
  content !! "payload" = Some (VJson (JObj m)) →
  PayloadType_call t m = Ret p →
  parse_payload c content (Some t) w = (Ret (Some p, false), w)
  ∧ ∀ name, Payload_getattr (Some p) name = m !! name.
Proof.
  intros Hc Hcall. split.
  - unfold parse_payload. rewrite Hc. unfold mbind, M_bind at 1. unfold lift at 1.
    cbn [Payload_new]. apply check_signature_returned.
    unfold mbind, M_bind, lift. by rewrite payload_kwargs, Hcall.
  - intros name. destruct (accepted_payload _ _ _ Hcall) as [-> Hkeys].
    rewrite getattr_kept. destruct (mem name (fields t)) eqn:Hn; [done |].
    by rewrite Hkeys.
Qed.



(** The resolvers a consumer registers go into the module-level table and
    stay there: after [parse_message] on consumer [a], whether or not it
    could build its message, [parse_message] on any consumer [b] resolves
    with [a]'s resolver under every key [b] does not register itself. *)
Theorem custom_resolvers_persist (a b : Consumer U) target_a payload_a content_a
    target_b payload_b content_b w m w2 :
  let w1 := snd (parse_message a target_a payload_a content_a w) in
  parse_message b target_b payload_b content_b w1 = (Ret m, w2) →
  let table := custom_target_resolver b ∪ (custom_target_resolver a ∪ TargetResolver w) in
  TargetResolver w2 = table
  ∧ target_user m = resolve table (msg_lookup m)
  ∧ ∀ k r, custom_target_resolver a !! k = Some r →
           custom_target_resolver b !! k = None →
           table !! k = Some r.
Proof.
  intros w1 Hb table.
  assert (TargetResolver w1 = custom_target_resolver a ∪ TargetResolver w) as H1.
  { subst w1. unfold parse_message, mbind, M_bind, TargetResolver_update,
      TargetResolver_read, self_channel_name, mret, M_ret, raise. simpl.
    by destruct (content_a !! "system") as [[| | s] |], (channel a). }
  revert Hb. unfold parse_message, mbind, M_bind, TargetResolver_update,
    TargetResolver_read, self_channel_name, mret, M_ret, raise. simpl.
  destruct (content_b !! "system") as [[| | s] |]; try discriminate.
  destruct (channel b) as [name |]; [| discriminate].
  intros [= <- <-]. simpl. rewrite H1. split; [done |]. split; [done |].
  intros k r Ha Hbk. subst table.
  rewrite lookup_union_r by done. by apply lookup_union_Some_l.
Qed.

(** An event called directly on a consumer that has its channel name, and
    fired: one frame goes to the consumer's transport, named after the
    class, with the payload passed to [fire] if it is truthy, else the one
    the event was built with, and without system metadata; one event id is
    drawn. *)
Theorem direct_event_fires_its_envelope (cls : EventClass U) inherited c payload sent w :
  channel_layer c = true →
  ∃ event w1 event',
    SimpleEvent_init cls inherited (Some c) None payload w = (Ret (Some event), w1)
    ∧ fire event sent w1
      = (Ret event',
         advance w
           [Transmit
              {[ "event" := VJson (JStr (camel_to_dot (cls_name cls)));
                 "payload" :=
                   PayloadArg_plain (payload_or sent (payload_or payload (Obj (PFields [])))) ]}
              false] 1).
Proof.
  intros Hlayer.
  unfold SimpleEvent_init, SimpleEvent_init_with, parse_content. simpl.
  unfold mbind, M_bind at 1. unfold mbind, M_bind at 1.
  rewrite (get_systems_run _ _ Hlayer). unfold mret, M_ret.
  eexists _, _, _. split; [reflexivity |].
  unfold fire, return_event. simpl.
  unfold mbind, M_bind, mret, M_ret. simpl.
  unfold send_json, emit, advance. simpl. reflexivity.
Qed.

(** An event called directly and fired to the client imitates a frame of the
    consumer's own user: the message of the pass has the local user as
    initiator, and the initiator's channel is the receiving one. *)
Theorem direct_event_is_its_own_initiator (cls : EventClass U) inherited c payload w event w1
    target p w' m w2 :
  SimpleEvent_init cls inherited (Some c) None payload w = (Ret (Some event), w1) →
  parse_message (self_consumer event) target p (self_content event) w' = (Ret m, w2) →
  is_initiator m = true
  ∧ initiator_channel (event_system (msg_system m)) = receiver_channel (msg_system m).
Proof.
  unfold SimpleEvent_init, SimpleEvent_init_with, parse_content. simpl.
  unfold mbind, M_bind, mret, M_ret, get_systems, self_channel_name, uuid4. simpl.
  unfold mbind, M_bind, mret, M_ret, raise. simpl.
  destruct (channel c) as [name |] eqn:Hname; [| discriminate].
  intros [= <- _].
  unfold parse_message, mbind, M_bind, TargetResolver_update, TargetResolver_read,
    self_channel_name, mret, M_ret, raise. simpl. rewrite Hname.
  intros [= <- _]. simpl. split; [| done].
  unfold same_id. by apply bool_decide_eq_true.
Qed.

End Further.

(** ** The chat deployment at work *)

Section ChatRuns.

Import Chat.
Local Open Scope list_scope.


(** C2, as written (the flag is cleared again on return whichever roles
    applied), fails: Bob's connection is only a target of Alice's
    broadcast, and his pass returns with the flag still set. *)
Lemma flag_survives_single_role_pass :
  ¬ (∀ (c : Consumer nat) content target (ht hi hb : option (Hook nat)) pt w p m w1 w2,
       parse_payload c content pt w = (Ret (p, false), w1) →
       parse_message c target p content w1 = (Ret m, w2) →
       ∃ m' w' added,
         send_broadcast c content target ht hi hb pt w = (Ret (Some m'), w')
         ∧ trace w' = trace w ++ added
         ∧ (activations added ≤ 1)%nat
         ∧ before_activated m' = false).
Proof.
  intros H.
  destruct (H bob (delivered "chat_send" hi 7) for_all
              (Some deliver) (Some acknowledge) (Some store_message) (Some ChatPayload)
              world0 _ _ _ _ eq_refl eq_refl) as (m' & w' & added & E & _ & _ & F).
  assert (∃ m0 w0,
            send_broadcast bob (delivered "chat_send" hi 7) for_all
              (Some deliver) (Some acknowledge) (Some store_message) (Some ChatPayload)
              world0
            = (Ret (Some m0), w0)
            ∧ before_activated m0 = true) as (m0 & w0 & E0 & F0).
  { eexists _, _. split; reflexivity. }
  rewrite E0 in E. injection E as <- _. congruence.
Qed.

Lemma flag_after_pass_on_bob :
  ∃ m' w' added,
    send_broadcast bob (delivered "chat_send" hi 7) for_all
      (Some deliver) (Some acknowledge) (Some store_message) (Some ChatPayload) world0
    = (Ret (Some m'), w')
    ∧ trace w' = trace world0 ++ added
    ∧ (activations added ≤ 1)%nat
    ∧ before_activated m' = true.
Proof.
  exact (before_flag_set_once bob (delivered "chat_send" hi 7) for_all
           (Some deliver) (Some acknowledge) (Some store_message) (Some ChatPayload)
           world0 _ _ _ _ eq_refl eq_refl).
Defined.

(** Alice writes to user 42, whom the directory does not know. *)
Lemma unknown_recipient_on_alice :
  ∃ m w',
    send_broadcast alice (delivered "direct_message" (<["to_user_id" := JNum 42]> hi) 7)
      for_user (Some deliver) (Some acknowledge) (Some store_message) (Some DirectPayload)
      world0
    = (Ret (Some m), w')
    ∧ hook_state w' = 0
    ∧ trace w' = [Transmit (error_frame RecipientNotExist) false].
Proof.
  eexists.
  exact (missing_recipient_stops_the_pass alice
           (delivered "direct_message" (<["to_user_id" := JNum 42]> hi) 7)
           (Some deliver) (Some acknowledge) (Some store_message) (Some DirectPayload)
           world0 _ _ _ _ eq_refl eq_refl eq_refl).
Defined.

(** C7, as written (the frame is accepted whenever no group is
    configured), fails where no channel layer is configured either: the
    method takes the branch for the missing layer, and there it raises. *)
Lemma frame_without_group_or_layer_raises :
  ¬ (∀ (c : Consumer nat) name payload (cls : EventClass nat) w,
       group_given (broadcast_group c) = None →
       handled_by c name cls →
       ∃ w' line,
         receive_json c (inbound_frame name payload) w = (Ret tt, w')
         ∧ trace w' = trace w ++ [Print line]).
Proof.
  intros H.
  destruct (H offline "chat.send" hi ChatSend world0 eq_refl (conj eq_refl eq_refl))
    as (w' & line & E & T).
  rewrite receive_json_no_layer_run in E by reflexivity.
  discriminate E.
Qed.

Lemma frame_on_loner :
  ∃ w' line,
    receive_json loner (inbound_frame "chat.send" hi) world0 = (Ret tt, w')
    ∧ trace w' = trace world0 ++ [Print line].
Proof.
  apply (frame_without_group_is_only_logged loner "chat.send" hi ChatSend world0);
    [reflexivity | reflexivity | split; reflexivity].
Defined.

(** A frame on a connection of a deployment without channel layer. *)
Lemma frame_on_offline :
  ∃ e,
    receive_json offline (inbound_frame "chat.send" hi) world0 = (Raise e, world0)
    ∧ Error_fire offline ChannelLayerDisabled world0 = (Raise e, world0)
    ∧ e = AttributeError "object has no attribute 'channel_name'".
Proof.
  apply (receive_json_without_channel_layer offline (inbound_frame "chat.send" hi) world0).
  reflexivity.
Defined.

(** C10, as written (every event constructed without content gets its
    envelope), fails on a consumer without channel layer, where the system
    metadata cannot be built: this is the construction [receive_json]
    itself attempts there. *)
Lemma direct_call_without_channel_layer_raises :
  ¬ (∀ (cls : EventClass nat) inherited (c : Consumer nat) payload w,
       let given := payload_or payload (Obj (PFields [])) in
       let system := {| initiator_channel := channel_name c;
                        initiator_user_id := user_id (scope_user c);
                        event_id := uuid_stream w (uuid_next w) |} in
       let built :=
         (Ret (Some {| self_class := cls; self_consumer := c; self_payload := given;
                       self_content :=
                         {[ "type" := VJson (JStr (camel_to_dot (cls_name cls)));
                            "payload" := PayloadArg_plain given;
                            "system" := VSystem system ]};
                       self_hidden := false |}),
          advance w [] 1) in
       SimpleEvent_init cls inherited (Some c) None payload w = built
       ∧ SimpleEvent_init cls (Some c) None None payload w = built).
Proof.
  intros H.
  destruct (H Error None offline (Some (Obj (PError ChannelLayerDisabled))) world0)
    as [E _].
  rewrite direct_call_without_channel_name in E by reflexivity.
  discriminate E.
Qed.

(** The hidden event [Error], built by the server on Alice's connection. *)
Lemma direct_error_on_alice :
  let built :=
    (Ret (Some {| self_class := Error; self_consumer := alice;
                  self_payload := Obj (PError RecipientNotExist);
                  self_content :=
                    {[ "type" := VJson (JStr "error");
                       "payload" := VError RecipientNotExist;
                       "system" := VSystem {| initiator_channel := "chan.7";
                                              initiator_user_id := Some 7%Z;
                                              event_id := "uuid-0" |} ]};
                  self_hidden := false |}),
     advance world0 [] 1) in
  SimpleEvent_init Error None (Some alice) None (Some (Obj (PError RecipientNotExist))) world0
  = built
  ∧ SimpleEvent_init Error (Some alice) None None (Some (Obj (PError RecipientNotExist)))
      world0
    = built.
Proof.
  apply (direct_call_is_never_rejected Error None alice
           (Some (Obj (PError RecipientNotExist))) world0).
  reflexivity.
Defined.

Lemma chat_payload_round_trip :
  Payload_serialize (PFields [("text", JStr "hi")]) = VJson (JObj hi).
Proof.
  apply (payload_round_trip ChatPayload hi (PFields [("text", JStr "hi")])).
  reflexivity.
Defined.

(** *** Where the code leaves the specification *)

(** C4 (defect): a frame that carries its own ['system'] entry makes the
    construction of the envelope fail with a [TypeError] that names
    neither a missing nor an unexpected argument. [check_signature]
    catches it, reports nothing and returns no data and no error, so the
    failure neither becomes an error envelope nor propagates; on a
    connection without a group the frame ends in the printed line. *)
Theorem unclassified_construction_failure_is_swallowed :
  let frame := <["system" := VJson (JObj ∅)]> (inbound_frame "chat.send" hi) in
  let content := <["name" := VJson (JStr "chat.send")]> (delete "event" frame) in
  Event_new content
    {| initiator_channel := "chan.7"; initiator_user_id := Some 7%Z; event_id := "uuid-0" |}
  = Raise (TypeError "Event() got multiple values for keyword argument 'system'")
  ∧ check_signature loner (system ← get_systems loner; lift (Event_new content system))
      world0
    = (Ret (None, false), advance world0 [] 1)
  ∧ receive_json loner frame world0
    = (Ret tt,
       advance world0
         [Print "Broadcast group not specified for ChatConsumer, broadcast not sent"] 1).
Proof. repeat split; reflexivity. Qed.

(** The same method on the failures it is written for: one missing field,
    one unexpected field. *)
Example one_missing_field_is_reported :
  parse_payload alice (delivered "chat_send" ∅ 7) (Some ChatPayload) world0
  = (Ret (None, true),
     advance world0 [Transmit (error_frame (PayloadSignatureWrong "text")) false] 1).
Proof. reflexivity. Qed.

Example one_unexpected_field_is_reported :
  parse_payload alice (delivered "chat_send" (<["colour" := JStr "red"]> hi) 7)
    (Some ChatPayload) world0
  = (Ret (None, true),
     advance world0 [Transmit (error_frame (ActionSignatureWrong "colour")) false] 1).
Proof. reflexivity. Qed.

(** With two fields missing the interpreter writes [arguments:], the split
    on [argument: ] finds nothing, and the handler itself fails. *)
Example two_missing_fields_raise :
  parse_payload alice (delivered "direct_message" ∅ 7) (Some DirectPayload) world0
  = (Raise (IndexError "list index out of range"), world0).
Proof. reflexivity. Qed.

(** A supplied key can make the text match both tests, and then both
    envelopes are sent, neither with the key's name. *)
Example one_failure_reported_twice :
  transmitted
    (trace (snd (parse_payload alice
                   (delivered "chat_send" (<["x missing argument: y" := JNull]> hi) 7)
                   (Some ChatPayload) world0)))
  = [error_frame (PayloadSignatureWrong "y"); error_frame (ActionSignatureWrong "x missing")].
Proof. reflexivity. Qed.

(** C5 (defect): the hidden event class [Error] is an attribute of every
    consumer under its own name, so a frame naming it finds a handler:
    no ActionNotExist is sent and the frame is published to the group. *)
Theorem hidden_event_named_by_class_is_published :
  let event := {| ev_name := VJson (JStr "Error");
                  ev_system := VSystem {| initiator_channel := "chan.7";
                                          initiator_user_id := Some 7%Z;
                                          event_id := "uuid-0" |};
                  ev_payload := Raw (VJson (JObj ∅)) |} in
  let w' := snd (receive_json alice (inbound_frame "Error" ∅) world0) in
  getattr alice "Error" = Some (AEvent Error)
  ∧ cls_hidden (@Error nat) = true
  ∧ receive_json alice (inbound_frame "Error" ∅) world0
    = (Ret tt, advance world0 [GroupSend "room" (Event_to_channels event)] 1)
  ∧ transmitted (trace w') = []
  ∧ published (trace w') = [("room", Event_to_channels event)].
Proof. repeat split; reflexivity. Qed.

(** What follows on a member's connection: the rejection is sent there,
    after the publish, and the hooks of the hidden event run all the same. *)
Example published_hidden_event_runs_its_hooks :
  let w := snd (dispatch bob (delivered "Error" ∅ 7) world0) in
  transmitted (trace w) = [error_frame ActionNotExist]
  ∧ hook_calls (trace w) = [HBefore; HTarget].
Proof. split; reflexivity. Qed.

(** The wire name of the same event is rejected as intended. *)
Example hidden_event_by_wire_name_is_rejected :
  receive_json alice (inbound_frame "error" ∅) world0
  = (Ret tt, advance world0 [Transmit (error_frame ActionNotExist) false] 2).
Proof. reflexivity. Qed.

End ChatRuns.

(** ** The further properties on the chat deployment *)

Section FurtherRuns.

Import Chat ChatEvents.
Local Open Scope list_scope.

Lemma chat_send_is_aliased :
  visible_event (hide_events (declared 7 (Some "room") true)) "chat_send".
Proof.
  apply (hide_events_aliases_public_events (declared 7 (Some "room") true) "ChatSend" ChatSend);
    reflexivity.
Defined.

Lemma greeting_returns_its_event :
  ∃ self',
    return_event greeting None world0
    = (Ret ({| ev_name := VJson (JStr "chat_send"); ev_system := greeting_system;
               ev_payload := Obj (PFields []) |}, self'), world0)
    ∧ self_content self' !! "type" = None
    ∧ self_content self' !! "system" = None
    ∧ (∀ k, k ≠ "type" → k ≠ "system" → self_content self' !! k = self_content greeting !! k)
    ∧ self_payload self' = self_payload greeting
    ∧ self_consumer self' = self_consumer greeting.
Proof.
  exact (return_event_takes_type_and_system greeting None world0 _ _ eq_refl eq_refl).
Defined.

Lemma greeting_fires_once :
  ∃ self' w',
    fire greeting None world0 = (Ret self', w')
    ∧ fire self' None w' = (Raise (KeyError "type"), w')
    ∧ fire_broadcast self' None w' = (Raise (KeyError "type"), w').
Proof.
  eexists _, _. split; [reflexivity |].
  exact (firing_again_raises greeting None world0 _ _ (or_introl eq_refl) None _).
Defined.

Lemma greeting_frame :
  ∃ self',
    fire greeting None world0
    = (Ret self',
       advance world0
         [Transmit {[ "event" := VJson (JStr "chat_send"); "payload" := VJson (JObj ∅) ]}
            false] 0).
Proof.
  exact (fire_sends_the_envelope_without_system greeting None world0 _ _ eq_refl eq_refl).
Defined.

Lemma greeting_publish :
  ∃ self',
    fire_broadcast greeting None world0
    = (Ret self',
       advance world0
         [GroupSend "room"
            {[ "type" := VJson (JStr "chat_send"); "payload" := VJson (JObj ∅);
               "system" := greeting_system ]}] 0).
Proof.
  exact (fire_broadcast_publishes_the_envelope greeting None world0 _ _ "room"
           eq_refl eq_refl eq_refl eq_refl).
Defined.

Lemma error_with_content_is_rejected :
  ∃ self,
    SimpleEvent_init Error None (Some alice) (Some (delivered "Error" ∅ 7)) None world0
    = (Ret (Some self), advance world0 [Transmit (error_frame ActionNotExist) false] 1)
    ∧ self_content self = delivered "Error" ∅ 7 ∧ self_hidden self = true.
Proof.
  apply (hidden_call_with_content_is_rejected Error None alice (delivered "Error" ∅ 7) None
           world0); reflexivity.
Defined.

Lemma dispatch_of_chat_send :
  dispatch alice (delivered "chat_send" hi 7) world0
  = send_broadcast alice (delivered "chat_send" hi 7) for_all
      (Some deliver) (Some acknowledge) (Some store_message) (Some ChatPayload) world0.
Proof.
  apply (dispatch_runs_the_pass alice (delivered "chat_send" hi 7) ChatSend "chat_send" world0);
    reflexivity.
Defined.

Lemma unknown_kind_on_alice :
  receive_json alice (inbound_frame "chat.leave" hi) world0
  = (Ret tt, advance world0 [Transmit (error_frame ActionNotExist) false] 2).
Proof.
  apply (receive_json_unknown_name alice "chat.leave" hi world0); reflexivity.
Defined.

Lemma chat_send_is_published :
  receive_json alice (inbound_frame "chat.send" hi) world0
  = (Ret tt,
     advance world0
       [GroupSend "room"
          {[ "type" := VJson (JStr "chat.send"); "payload" := VJson (JObj hi);
             "system" := greeting_system ]}] 1).
Proof.
  apply (receive_json_publishes_with_own_metadata alice "chat.send" hi ChatSend "room" world0);
    [reflexivity | split; reflexivity | reflexivity].
Defined.


Lemma flag_of_an_empty_chat_payload :
  ∃ sent,
    extends world0
      (advance world0 [Transmit (error_frame (PayloadSignatureWrong "text")) false] 1)
      (map (fun d => Transmit d false) sent)
    ∧ Forall signature_error sent
    ∧ true = any sent
    ∧ (∀ a, None = Some a ↔ PayloadType_call ChatPayload ∅ = Ret a).
Proof.
  exact (check_signature_flag_tells_what_was_sent alice (lift (PayloadType_call ChatPayload ∅))
           world0 _ None true _ eq_refl eq_refl).
Defined.


Lemma bob_stands_by :
  ∃ m w',
    send_broadcast bob (delivered "direct_message" (<["to_user_id" := JNum 7]> hi) 7) for_user
      (Some deliver) (Some acknowledge) (Some store_message) (Some DirectPayload) world0
    = (Ret (Some m), w')
    ∧ trace w' = trace world0
    ∧ hook_state w' = hook_state world0
    ∧ uuid_next w' = uuid_next world0.
Proof.
  eexists.
  exact (bystander_pass_is_silent bob
           (delivered "direct_message" (<["to_user_id" := JNum 7]> hi) 7) for_user
           (Some deliver) (Some acknowledge) (Some store_message) (Some DirectPayload)
           world0 _ _ _ _ eq_refl eq_refl eq_refl eq_refl).
Defined.

Lemma delivery_to_bob :
  ∃ m w',
    send_broadcast bob (delivered "chat_send" hi 7) for_all
      (Some deliver) (Some acknowledge) (Some store_message) (Some ChatPayload) world0
    = (Ret (Some (before_activate m)), w')
    ∧ trace w'
      = [Call HBefore; Activate; Call HTarget;
         Transmit {[ "event" := VJson (JStr "chat.message"); "payload" := VJson (JObj hi) ]}
           false]
    ∧ hook_state w' = 1.
Proof.
  eexists.
  exact (target_pass_runs_before_then_target bob (delivered "chat_send" hi 7) for_all
           deliver store_message (Some acknowledge) (Some ChatPayload)
           world0 _ _ _ _ eq_refl eq_refl eq_refl eq_refl).
Defined.

Lemma hi_is_accepted :
  parse_payload alice (delivered "chat_send" hi 7) (Some ChatPayload) world0
  = (Ret (Some (PFields [("text", JStr "hi")]), false), world0)
  ∧ ∀ name, Payload_getattr (Some (PFields [("text", JStr "hi")])) name = hi !! name.
Proof.
  apply (parse_payload_accepts alice (delivered "chat_send" hi 7) ChatPayload hi
           (PFields [("text", JStr "hi")]) world0); reflexivity.
Defined.

Lemma empty_payload_stops_the_pass :
  send_broadcast alice (delivered "chat_send" ∅ 7) for_all
    (Some deliver) (Some acknowledge) (Some store_message) (Some ChatPayload) world0
  = (Ret None,
     advance world0 [Transmit (error_frame (PayloadSignatureWrong "text")) false] 1).
Proof.
  apply (send_broadcast_one_missing_field alice (delivered "chat_send" ∅ 7) for_all
           (Some deliver) (Some acknowledge) (Some store_message) ChatPayload ∅ "text" world0);
    reflexivity.
Defined.


(** A visitor's connection resolves the recipient of a direct message with
    the resolver Alice's consumer class registered: its own class registers
    none. *)
Lemma resolver_of_alice_serves_guest :
  ∃ m w2,
    parse_message guest for_user
      (Some (PFields [("text", JStr "hi"); ("to_user_id", JNum 8)]))
      (delivered "direct_message" (<["to_user_id" := JNum 8]> hi) 7)
      (snd (parse_message alice for_all None (delivered "chat_send" hi 7) world0))
    = (Ret m, w2)
    ∧ custom_target_resolver guest !! "to_user_id" = None
    ∧ TargetResolver w2 !! "to_user_id" = Some by_user_id
    ∧ target_user m = Some {| user_id := Some 8%Z |}.
Proof.
  eexists _, _. split; [reflexivity |]. split; [reflexivity |].
  destruct (custom_resolvers_persist alice guest for_all None (delivered "chat_send" hi 7)
              for_user (Some (PFields [("text", JStr "hi"); ("to_user_id", JNum 8)]))
              (delivered "direct_message" (<["to_user_id" := JNum 8]> hi) 7)
              world0 _ _ eq_refl) as (Htable & Htarget & Hkeys).
  split.
  - rewrite Htable. exact (Hkeys "to_user_id" by_user_id eq_refl eq_refl).
  - rewrite Htarget. reflexivity.
Defined.

(** The server greets Alice itself. *)
Lemma direct_chat_send_on_alice :
  ∃ event w1 event',
    SimpleEvent_init ChatSend None (Some alice) None (Some (Obj (PFields [("text", JStr "hi")])))
      world0
    = (Ret (Some event), w1)
    ∧ fire event None w1
      = (Ret event',
         advance world0
           [Transmit {[ "event" := VJson (JStr "chat.send"); "payload" := VJson (JObj hi) ]}
              false] 1).
Proof.
  apply (direct_event_fires_its_envelope ChatSend None alice
           (Some (Obj (PFields [("text", JStr "hi")]))) None world0).
  reflexivity.
Defined.

Lemma direct_chat_send_is_its_own_initiator :
  ∃ event w1 m w2,
    SimpleEvent_init ChatSend None (Some alice) None None world0 = (Ret (Some event), w1)
    ∧ parse_message (self_consumer event) for_all None (self_content event) w1 = (Ret m, w2)
    ∧ is_initiator m = true
    ∧ initiator_channel (event_system (msg_system m)) = receiver_channel (msg_system m).
Proof.
  eexists _, _, _, _. split; [reflexivity |]. split; [reflexivity |].
  exact (direct_event_is_its_own_initiator ChatSend None alice None world0 _ _
           for_all None _ _ _ eq_refl eq_refl).
Defined.

End FurtherRuns.
